(** * Boom Summarizer API: a shallow embedding of [main.py]

    The service has one interesting endpoint, [POST /summarize].  Its body
    is embedded here as a pure function of the request and of a [World]
    record that supplies everything the handler obtains from outside the
    repository: the process environment, the outbound HTTP call and the
    library routines whose tables are not part of the program (JSON
    parsing, value rendering, model validation, Unicode case mapping).

    Python [str] values are lists of Unicode code points, [bytes] values
    are lists of [Byte.byte]. *)

From Stdlib Require Import List String Ascii NArith ZArith Lia Bool.
From Stdlib Require Import Strings.Byte.
From ExtLib Require Import Structures.Monad Structures.MonadExc.
From ExtLib Require Import Data.Monads.EitherMonad.
Import ListNotations.
Import MonadNotation.

Local Open Scope N_scope.
Local Open Scope monad_scope.

(** ** Python [str] built-ins used by the handler *)

Module PyStr.

Definition str := list N.

(** An ASCII literal as a sequence of code points. *)
Definition lit (s : string) : str :=
  map N_of_ascii (list_ascii_of_string s).

(** The same, with every backquote of [s] standing for a double quote. *)
Definition litq (s : string) : str :=
  map (fun c => if c =? 96 then 34 else c) (lit s).

Fixpoint eqb (a b : str) : bool :=
  match a, b with
  | [], [] => true
  | x :: a', y :: b' => (x =? y) && eqb a' b'
  | _, _ => false
  end.

(** Truth value of a string: empty strings are false. *)
Definition truthy (s : str) : bool :=
  match s with [] => false | _ :: _ => true end.

(** [str.isspace] on one code point. *)
Definition isspace (c : N) : bool :=
  ((0x09 <=? c) && (c <=? 0x0D)) || ((0x1C <=? c) && (c <=? 0x20))
  || (c =? 0x85) || (c =? 0xA0) || (c =? 0x1680)
  || ((0x2000 <=? c) && (c <=? 0x200A))
  || (c =? 0x2028) || (c =? 0x2029) || (c =? 0x202F)
  || (c =? 0x205F) || (c =? 0x3000).

(** The line boundaries recognised by [str.splitlines]. *)
Definition is_linebreak (c : N) : bool :=
  ((0x0A <=? c) && (c <=? 0x0D)) || ((0x1C <=? c) && (c <=? 0x1E))
  || (c =? 0x85) || (c =? 0x2028) || (c =? 0x2029).

Fixpoint lstrip (s : str) : str :=
  match s with
  | c :: s' => if isspace c then lstrip s' else s
  | [] => []
  end.

Definition rstrip (s : str) : str := rev (lstrip (rev s)).

Definition strip (s : str) : str := rstrip (lstrip s).

(** [splitlines_from cur s]: [cur] holds, reversed, the characters of the
    line being read.  A carriage return followed by a line feed is one
    boundary; a final boundary opens no further line. *)
Fixpoint splitlines_from (cur : str) (s : str) : list str :=
  match s with
  | [] => match cur with [] => [] | _ :: _ => [rev cur] end
  | c :: s' =>
      if is_linebreak c then
        rev cur ::
          match s' with
          | d :: s'' =>
              if (c =? 0x0D) && (d =? 0x0A) then splitlines_from [] s''
              else splitlines_from [] s'
          | [] => splitlines_from [] s'
          end
      else splitlines_from (c :: cur) s'
  end.

Definition splitlines (s : str) : list str := splitlines_from [] s.

Definition endswith (s suffix : str) : bool :=
  eqb (skipn (List.length s - List.length suffix)%nat s) suffix.

(** [s.find(c)] for a one-character needle: first index, or -1. *)
Fixpoint find (c : N) (s : str) : Z :=
  match s with
  | [] => (-1)%Z
  | x :: s' =>
      if x =? c then 0%Z
      else let i := find c s' in
           if (i =? -1)%Z then (-1)%Z else (i + 1)%Z
  end.

(** [s.rfind(c)] for a one-character needle: last index, or -1. *)
Fixpoint rfind (c : N) (s : str) : Z :=
  match s with
  | [] => (-1)%Z
  | x :: s' =>
      let i := rfind c s' in
      if (i =? -1)%Z then (if x =? c then 0%Z else (-1)%Z)
      else (i + 1)%Z
  end.

(** [s[start:stop]] for non-negative bounds. *)
Definition slice (s : str) (start stop : Z) : str :=
  firstn (Z.to_nat (stop - start)) (skipn (Z.to_nat start) s).

(** [needle in s] for strings. *)
Fixpoint startswith (s prefix : str) : bool :=
  match prefix, s with
  | [], _ => true
  | p :: prefix', c :: s' => (c =? p) && startswith s' prefix'
  | _ :: _, [] => false
  end.

Fixpoint contains (s needle : str) : bool :=
  startswith s needle
  || match s with
     | [] => false
     | _ :: s' => contains s' needle
     end.

(** ASCII case folding, the part of [str.lower] that the language fixes
    independently of the Unicode tables. *)
Definition ascii_lower (s : str) : str :=
  map (fun c => if (0x41 <=? c) && (c <=? 0x5A) then c + 0x20 else c) s.

End PyStr.

Import PyStr.

(** ** [bytes.decode("utf-8", errors=...)] *)

Module Utf8.

Inductive Errors := Strict | Ignore | Replace.

(** Outcome of reading one sequence at the head of the input. *)
Inductive Scan :=
| Char (cp : N) (len : nat)   (* well-formed sequence of [len] bytes *)
| InvalidStart                (* error spans one byte *)
| InvalidContinuation (span : nat)  (* error spans [span] bytes *)
| UnexpectedEnd.              (* error spans the rest of the input *)

Definition is_continuation (b : N) : bool := (0x80 <=? b) && (b <? 0xC0).

Definition scan (b0 : N) (rest : list N) : Scan :=
  if b0 <? 0x80 then Char b0 1%nat
  else if b0 <? 0xE0 then
    if b0 <? 0xC2 then InvalidStart
    else match rest with
         | [] => UnexpectedEnd
         | b1 :: _ =>
             if negb (is_continuation b1) then InvalidContinuation 1%nat
             else Char (N.shiftl b0 6 + b1 - (N.shiftl 0xC0 6 + 0x80)) 2%nat
         end
  else if b0 <? 0xF0 then
    match rest with
    | [] => UnexpectedEnd
    | b1 :: r1 =>
        if negb (is_continuation b1)
           || (if b1 <? 0xA0 then b0 =? 0xE0 else b0 =? 0xED)
        then InvalidContinuation 1%nat
        else match r1 with
             | [] => UnexpectedEnd
             | b2 :: _ =>
                 if negb (is_continuation b2) then InvalidContinuation 2%nat
                 else Char (N.shiftl b0 12 + N.shiftl b1 6 + b2
                            - (N.shiftl 0xE0 12 + N.shiftl 0x80 6 + 0x80)) 3%nat
             end
    end
  else if b0 <? 0xF5 then
    match rest with
    | [] => UnexpectedEnd
    | b1 :: r1 =>
        if negb (is_continuation b1)
           || (if b1 <? 0x90 then b0 =? 0xF0 else b0 =? 0xF4)
        then InvalidContinuation 1%nat
        else match r1 with
             | [] => UnexpectedEnd
             | b2 :: r2 =>
                 if negb (is_continuation b2) then InvalidContinuation 2%nat
                 else match r2 with
                      | [] => UnexpectedEnd
                      | b3 :: _ =>
                          if negb (is_continuation b3)
                          then InvalidContinuation 3%nat
                          else Char (N.shiftl b0 18 + N.shiftl b1 12
                                     + N.shiftl b2 6 + b3
                                     - (N.shiftl 0xF0 18 + N.shiftl 0x80 12
                                        + N.shiftl 0x80 6 + 0x80)) 4%nat
                      end
             end
    end
  else InvalidStart.

(** Number of input bytes an outcome accounts for. *)
Definition span (sc : Scan) (remaining : nat) : nat :=
  match sc with
  | Char _ len => len
  | InvalidStart => 1%nat
  | InvalidContinuation n => n
  | UnexpectedEnd => remaining
  end.

Inductive Error := UnicodeDecodeError (position : nat).

(** The decoding loop; [pos] is the offset of [bs] in the whole input.
    Every round consumes at least one byte, so [length bs] rounds are
    enough (see [decode_loop_fuel]). *)
Fixpoint decode_loop (fuel : nat) (errors : Errors) (pos : nat)
         (bs : list N) : Error + str :=
  match fuel, bs with
  | O, _ => inr []
  | _, [] => inr []
  | S fuel', b0 :: rest =>
      let sc := scan b0 rest in
      let n := span sc (List.length bs) in
      let continue := decode_loop fuel' errors (pos + n)%nat (skipn n bs) in
      match sc with
      | Char cp _ =>
          match continue with
          | inr out => inr (cp :: out)
          | inl e => inl e
          end
      | _ =>
          match errors with
          | Strict => inl (UnicodeDecodeError pos)
          | Ignore => continue
          | Replace =>
              match continue with
              | inr out => inr (0xFFFD :: out)
              | inl e => inl e
              end
          end
      end
  end.

(** The sequences the loop meets, in order: [Some cp] for a well-formed
    one, [None] for a span in error. *)
Fixpoint sequences (fuel : nat) (bs : list N) : list (option N) :=
  match fuel, bs with
  | O, _ => []
  | _, [] => []
  | S fuel', b0 :: rest =>
      let sc := scan b0 rest in
      let n := span sc (List.length bs) in
      match sc with Char cp _ => Some cp | _ => None end
        :: sequences fuel' (skipn n bs)
  end.

(** What each error handler makes of one sequence. *)
Definition dropped (e : option N) : str :=
  match e with Some cp => [cp] | None => [] end.

Definition marked (e : option N) : str :=
  match e with Some cp => [cp] | None => [0xFFFD] end.

Definition decode (errors : Errors) (data : list byte)
  : Error + str :=
  let bs := map Byte.to_N data in
  decode_loop (List.length bs) errors 0%nat bs.

End Utf8.

(** ** Data model *)

(** [class SummaryOut(BaseModel)] *)
Record SummaryOut := {
  purpose : str;
  insights : list str;
  risks : list str;
  next_steps : list str;
  notes : option (list str);
  model_used : str
}.

(** What the handler reads of an [UploadFile]: its name and its bytes. *)
Record UploadFile := {
  filename : str;
  content : list byte
}.

(** The three form fields of [POST /summarize]. *)
Record Form := {
  text : option str;
  file : option UploadFile;
  summary_type : str
}.

Record HTTPException := {
  status_code : Z;
  detail : str
}.

(** How a call of the handler can end without a result: an [HTTPException]
    raised on purpose, or an exception nobody catches. *)
Inductive Failure :=
| Http (e : HTTPException)
| Undecodable (e : Utf8.Error)
| AssertionError.

(** Values as the JSON decoder builds them; a float is its 64-bit pattern. *)
#[local] Unset Elimination Schemes.
Inductive PyVal :=
| PyNone
| PyBool (b : bool)
| PyInt (z : Z)
| PyFloat (bits : N)
| PyText (s : str)
| PyList (items : list PyVal)
| PyDict (items : list (str * PyVal)).
#[local] Set Elimination Schemes.

(** Exceptions that can be raised inside the [try] block of the handler;
    all of them derive from [Exception]. *)
Inductive PyExc :=
| ImportError
| TransportError
| TimeoutException
| HTTPStatusError (status : Z)
| JSONDecodeError
| AttributeError
| ValidationError.

(** The JSON body of the outbound request. *)
Record Payload := {
  model : str;
  input : list (str * str)     (* role, content *)
}.

Inductive PostOutcome :=
| ConnectFailed
| TimedOut
| Responded (status : Z) (body : list byte).

(** Everything the handler takes from outside the repository. *)
Record World := {
  environ : str -> option str;          (* os.environ *)
  str_lower : str -> str;               (* str.lower *)
  import_httpx : bool;                  (* does [import httpx] succeed *)
  post : Z -> str -> Payload -> list (str * str) -> PostOutcome;
                                        (* timeout, url, json, headers *)
  response_json : list byte -> option PyVal;   (* r.json() *)
  py_str : PyVal -> str;                (* str(data) *)
  json_parser : str -> option PyVal;    (* json.loads on a non-empty text *)
  as_str : PyVal -> option str;         (* validation of a [str] field *)
  as_str_list : PyVal -> option (list str)     (* ... of a [List[str]] field *)
}.

(** ** The heuristic path *)

(** [x or y] on lists. *)
Definition list_or {A} (x y : list A) : list A :=
  match x with [] => y | _ :: _ => x end.

Definition placeholder : str := lit "No salient lines detected.".
Definition caution : str := lit "Not verified. Heuristic mode.".

Definition heuristic_summarize (text : str) : SummaryOut :=
  let lines := map strip (filter (fun ln => truthy (strip ln)) (splitlines text)) in
  let head := firstn 3 lines in
  let tail := if (3 <=? List.length lines)%nat
              then skipn (List.length lines - 3)%nat lines
              else lines in
  let insights := list_or (firstn 5 (head ++ tail)) [placeholder] in
  {| purpose := lit "Summarize an uploaded document or pasted text into Boom"
                ++ [0xE2; 0x20AC; 0x2122] ++ lit "s standard sections.";
     insights := insights;
     risks := [caution];
     next_steps := [lit "Provide clearer objectives.";
                    lit "Flag key metrics to extract.";
                    lit "Request LLM mode if available."];
     notes := Some [lit "LLM disabled or key missing."];
     model_used := lit "heuristic" |}.

(** ** Reading an upload *)

Definition unsupported_format : HTTPException :=
  {| status_code := 400;
     detail := lit "Only .txt accepted in this minimal build. Use 'text' field for pasted content." |}.

(** An exception of the decoder is not caught here and would leave the
    handler. *)
Definition read_file_bytes (W : World) (upload : UploadFile) : Failure + str :=
  if endswith (str_lower W (filename upload)) (lit ".txt") then
    match Utf8.decode Utf8.Ignore (content upload) with
    | inr s => inr s
    | inl e => inl (Undecodable e)
    end
  else inl (Http unsupported_format).

(** ** The external-model path: the body of the [try] block *)

(** Truth value of a decoded JSON value. *)
Definition py_truthy (v : PyVal) : bool :=
  match v with
  | PyNone => false
  | PyBool b => b
  | PyInt z => negb (z =? 0)%Z
  | PyFloat bits => negb (N.land bits 0x7FFFFFFFFFFFFFFF =? 0)
  | PyText s => truthy s
  | PyList items => match items with [] => false | _ :: _ => true end
  | PyDict items => match items with [] => false | _ :: _ => true end
  end.

Definition py_or (x y : PyVal) : PyVal := if py_truthy x then x else y.

Fixpoint assoc (key : str) (items : list (str * PyVal)) : option PyVal :=
  match items with
  | [] => None
  | (k, v) :: items' => if PyStr.eqb k key then Some v else assoc key items'
  end.

(** [d.get(key, default)]; only a [dict] has the method. *)
Definition dict_get (d : PyVal) (key : str) (default : PyVal) : PyExc + PyVal :=
  match d with
  | PyDict items =>
      ret (match assoc key items with Some v => v | None => default end)
  | _ => raise AttributeError
  end.

(** [json.loads]: the empty text is never a JSON document. *)
Definition json_loads (W : World) (s : str) : PyExc + PyVal :=
  match s with
  | [] => raise JSONDecodeError
  | _ :: _ =>
      match json_parser W s with
      | Some v => ret v
      | None => raise JSONDecodeError
      end
  end.

(** Construction of a [SummaryOut] from decoded values; [notes] keeps its
    default. *)
Definition validate (W : World) (p i r n : PyVal) (used : str)
  : PyExc + SummaryOut :=
  match as_str W p, as_str_list W i, as_str_list W r, as_str_list W n with
  | Some p', Some i', Some r', Some n' =>
      ret {| purpose := p'; insights := i'; risks := r'; next_steps := n';
             notes := None; model_used := used |}
  | _, _, _, _ => raise ValidationError
  end.

Definition nl : str := [0x0A].

Definition prompt (text summary_type : str) : str :=
  lit "Summarize the document into this JSON with short, precise bullets:" ++ nl
  ++ lit "{" ++ nl
  ++ litq "  `purpose`: `...`," ++ nl
  ++ litq "  `insights`: [`...`, `...`]," ++ nl
  ++ litq "  `risks`: [`...`, `...`]," ++ nl
  ++ litq "  `next_steps`: [`...`, `...`]" ++ nl
  ++ lit "}" ++ nl
  ++ lit "Constraints: U.S. English, numbered bullets where useful, no fluff. Summary type: "
  ++ summary_type ++ lit "." ++ nl
  ++ lit "Document:" ++ nl
  ++ slice text 0 12000.

Definition is_success (status : Z) : bool :=
  ((200 <=? status) && (status <=? 299))%Z.

Definition model_url : str := lit "https://api.openai.com/v1/responses".

Definition model_headers (key : str) : list (str * str) :=
  [(lit "Authorization", lit "Bearer " ++ key)].

Definition model_payload (text summary_type : str) : Payload :=
  {| model := lit "gpt-4o-mini";
     input := [(lit "user", prompt text summary_type)] |}.

(** The span from the first opening brace to the last closing brace of
    [txt], or the empty text when either is missing. *)
Definition brace_span (txt : str) : str :=
  let start := find 0x7B txt in
  let end_ := rfind 0x7D txt in
  if negb (start =? -1)%Z && negb (end_ =? -1)%Z
  then slice txt start (end_ + 1)
  else [].

Definition external_model (W : World) (key text summary_type : str)
  : PyExc + SummaryOut :=
  (if import_httpx W then ret tt else raise ImportError) ;;
  r <- match post W 60 model_url (model_payload text summary_type)
                  (model_headers key) with
       | ConnectFailed => raise TransportError
       | TimedOut => raise TimeoutException
       | Responded status body => ret (status, body)
       end ;;
  (if is_success (fst r) then ret tt else raise (HTTPStatusError (fst r))) ;;
  data <- match response_json W (snd r) with
          | Some v => ret v
          | None => raise JSONDecodeError
          end ;;
  let txt := py_str W data in
  let body := brace_span txt in
  parsed <- json_loads W body ;;
  p <- dict_get parsed (lit "purpose") (PyText []) ;;
  i <- dict_get parsed (lit "insights") (PyList []) ;;
  r <- dict_get parsed (lit "risks") (PyList []) ;;
  n <- dict_get parsed (lit "next_steps") (PyList []) ;;
  validate W p (py_or i (PyList [])) (py_or r (PyList [])) (py_or n (PyList []))
           (lit "gpt-4o-mini").

(** ** The handler of [POST /summarize] *)

Definition getenv (W : World) (name default : str) : str :=
  match environ W name with Some v => v | None => default end.

(** Line 57: the credential as the handler reads it. *)
Definition openai_key (W : World) : str :=
  strip (getenv W (lit "OPENAI_API_KEY") []).

(** Lines 58 to 101: the optional model call with its silent fallback. *)
Definition produce_summary (W : World) (text summary_type : str) : SummaryOut :=
  if truthy (openai_key W) then
    match external_model W (openai_key W) text summary_type with
    | inr out => out
    | inl _ => heuristic_summarize text
    end
  else heuristic_summarize text.

Definition missing_input : HTTPException :=
  {| status_code := 400;
     detail := lit "Provide 'text' or a .txt 'file'." |}.

Definition text_truthy (t : option str) : bool :=
  match t with Some s => truthy s | None => false end.

Definition file_truthy (f : option UploadFile) : bool :=
  match f with Some _ => true | None => false end.

Definition summarize (W : World) (form : Form) : Failure + SummaryOut :=
  if negb (text_truthy (text form)) && negb (file_truthy (file form)) then
    raise (Http missing_input)
  else
    t <- match file form with
         | Some f => s <- read_file_bytes W f ;; ret (Some s)
         | None => ret (text form)
         end ;;
    t <- match t with
         | Some s => ret s
         | None => raise AssertionError
         end ;;
    ret (produce_summary W t (summary_type form)).

(** A Unicode scalar value: at most U+10FFFF and no surrogate. *)
Definition is_scalar (c : N) : bool :=
  (c <=? 0x10FFFF) && negb ((0xD800 <=? c) && (c <=? 0xDFFF)).

(** [s.encode("utf-8")] succeeds: [s] holds no lone surrogate. *)
Definition encodable (s : str) : bool := forallb is_scalar s.

(** The body of the response can be rendered: the framework dumps the
    returned model as JSON text and encodes that text as UTF-8, which
    needs every string of the summary to be encodable. *)
Definition renderable (out : SummaryOut) : bool :=
  encodable (purpose out)
  && forallb encodable (insights out)
  && forallb encodable (risks out)
  && forallb encodable (next_steps out)
  && match notes out with
     | Some ns => forallb encodable ns
     | None => true
     end
  && encodable (model_used out).

(** The status line FastAPI sends for an outcome of the handler: that of
    the [HTTPException] raised, 500 for any other exception and for a
    summary it cannot render, 200 otherwise. *)
Definition http_status (r : Failure + SummaryOut) : Z :=
  match r with
  | inr out => if renderable out then 200 else 500
  | inl (Http e) => status_code e
  | inl _ => 500
  end%Z.

(** A world without network, credential or third-party packages. *)
Definition offline : World :=
  {| environ := fun _ => None;
     str_lower := ascii_lower;
     import_httpx := false;
     post := fun _ _ _ _ => ConnectFailed;
     response_json := fun _ => None;
     py_str := fun _ => [];
     json_parser := fun _ => None;
     as_str := fun v => match v with PyText s => Some s | _ => None end;
     as_str_list := fun _ => None |}.

(** A world with a credential whose outbound call times out. *)
Definition timing_out : World :=
  {| environ := fun name =>
       if PyStr.eqb name (lit "OPENAI_API_KEY") then Some (lit " sk-test ")
       else None;
     str_lower := ascii_lower;
     import_httpx := true;
     post := fun _ _ _ _ => TimedOut;
     response_json := fun _ => None;
     py_str := fun _ => [];
     json_parser := fun _ => None;
     as_str := fun v => match v with PyText s => Some s | _ => None end;
     as_str_list := fun _ => None |}.

(** ** Vocabulary of the statements *)

(** The upload carries a plain-text name. *)
Definition accepted (W : World) (f : UploadFile) : Prop :=
  endswith (str_lower W (filename f)) (lit ".txt") = true.

(** The request gets past the input guard and the file check. *)
Definition passes_validation (W : World) (form : Form) : Prop :=
  match file form with
  | Some f => accepted W f
  | None => text_truthy (text form) = true
  end.

(** [t] is the text the request denotes: the decoded upload when there is
    one, the pasted text otherwise. *)
Definition effective_text (form : Form) (t : str) : Prop :=
  match file form with
  | Some f => Utf8.decode Utf8.Ignore (content f) = inr t
  | None => text form = Some t
  end.

(** The credential variable is unset, or blank once stripped. *)
Definition no_credential (W : World) : Prop :=
  match environ W (lit "OPENAI_API_KEY") with
  | None => True
  | Some v => strip v = []
  end.

Definition seven_lines : str :=
  lit "Line1" ++ nl ++ lit "Line2" ++ nl ++ lit "Line3" ++ nl ++ lit "Line4"
  ++ nl ++ lit "Line5" ++ nl ++ lit "Line6" ++ nl ++ lit "Line7".

Definition pasted (t : str) (summary_type : str) : Form :=
  {| text := Some t; file := None; summary_type := summary_type |}.

(** The failures of the model call that the specification lists. *)
Inductive model_failure (W : World) (key t st : str) : Prop :=
| import_error :
    import_httpx W = false -> model_failure W key t st
| network_error :
    post W 60 model_url (model_payload t st) (model_headers key) = ConnectFailed ->
    model_failure W key t st
| timeout :
    post W 60 model_url (model_payload t st) (model_headers key) = TimedOut ->
    model_failure W key t st
| bad_status status body :
    post W 60 model_url (model_payload t st) (model_headers key)
      = Responded status body ->
    is_success status = false -> model_failure W key t st
| missing_braces status body data :
    post W 60 model_url (model_payload t st) (model_headers key)
      = Responded status body ->
    response_json W body = Some data ->
    (find 0x7B (py_str W data) = (-1)%Z \/ rfind 0x7D (py_str W data) = (-1)%Z) ->
    model_failure W key t st
| unparseable_json status body data :
    post W 60 model_url (model_payload t st) (model_headers key)
      = Responded status body ->
    response_json W body = Some data ->
    json_parser W (brace_span (py_str W data)) = None ->
    model_failure W key t st.

(** A world whose model answers with an empty JSON object. *)
Definition answering : World :=
  {| environ := fun name =>
       if PyStr.eqb name (lit "OPENAI_API_KEY") then Some (lit "sk-test")
       else None;
     str_lower := ascii_lower;
     import_httpx := true;
     post := fun _ _ _ _ => Responded 200 [];
     response_json := fun _ => Some (PyDict []);
     py_str := fun _ => lit "{}";
     json_parser := fun s => if PyStr.eqb s (lit "{}") then Some (PyDict []) else None;
     as_str := fun v => match v with PyText s => Some s | _ => None end;
     as_str_list := fun v => match v with PyList [] => Some [] | _ => None end |}.

(** An upload with a plain-text name and a byte that is not UTF-8. *)
Definition garbled : UploadFile :=
  {| filename := lit "notes.txt"; content := [x61; xff; x62] |}.

(** An upload of another format. *)
Definition report_pdf : UploadFile :=
  {| filename := lit "report.pdf"; content := [x25; x50; x44; x46] |}.

(** An upload of two lines of plain text. *)
Definition notes_txt : UploadFile :=
  {| filename := lit "Notes.TXT"; content := [x68; x69; x0a; x79; x6f] |}.

(** The text has no line that survives stripping. *)
Definition no_salient_line (t : str) : Prop :=
  Forall (fun ln => strip ln = []) (splitlines t).

(** ** Vocabulary of the further properties *)

(** Line 22: the stripped non-blank lines of a text. *)
Definition salient_lines (t : str) : list str :=
  map strip (filter (fun ln => truthy (strip ln)) (splitlines t)).

Definition no_linebreak (s : str) : Prop :=
  Forall (fun c => is_linebreak c = false) s.

(** A text written line by line, every line followed by [sep]. *)
Definition unlines (sep : str) (lines : list str) : str :=
  flat_map (fun l => l ++ sep) lines.

(** The UTF-8 encoding of one scalar value. *)
Definition encode_cp (c : N) : list N :=
  if c <? 0x80 then [c]
  else if c <? 0x800 then [0xC0 + c / 64; 0x80 + c mod 64]
  else if c <? 0x10000 then
    [0xE0 + c / 4096; 0x80 + (c / 64) mod 64; 0x80 + c mod 64]
  else
    [0xF0 + c / 262144; 0x80 + (c / 4096) mod 64;
     0x80 + (c / 64) mod 64; 0x80 + c mod 64].

(** A byte that begins no UTF-8 sequence: a continuation byte, an
    overlong lead C0 or C1, or a lead above F4. *)
Definition never_starts (b : N) : bool :=
  ((0x80 <=? b) && (b <? 0xC2)) || ((0xF5 <=? b) && (b <? 256)).

(** Input made of encoded text and of stray bytes. *)
Inductive Piece :=
| Text (s : str)
| Stray (b : N).

Definition piece_ok (p : Piece) : Prop :=
  match p with
  | Text s => Forall (fun c => is_scalar c = true) s
  | Stray b => never_starts b = true
  end.

Definition piece_bytes (p : Piece) : list N :=
  match p with
  | Text s => flat_map encode_cp s
  | Stray b => [b]
  end.

Definition piece_text (p : Piece) : str :=
  match p with
  | Text s => s
  | Stray _ => []
  end.

(** An upload with two-, three- and four-byte sequences and two stray
    bytes: c, U+E9, FF, U+20AC, 80, U+1F600, b. *)
Definition mixed_txt : UploadFile :=
  {| filename := lit "mixed.txt";
     content := [x63; xc3; xa9; xff; xe2; x82; xac; x80;
                 xf0; x9f; x98; x80; x62] |}.

(** Pasted text that begins with a lone surrogate. *)
Definition lone_surrogate : Form :=
  pasted ([0xD800] ++ lit "abc") (lit "executive").

(** An upload without content. *)
Definition empty_txt : UploadFile :=
  {| filename := lit "empty.txt"; content := [] |}.

(** ** The decoder *)

Section Decoder.

Import Utf8.

(** Every outcome of [scan] accounts for at least one byte. *)
Lemma span_positive b0 rest :
  (1 <= span (scan b0 rest) (S (List.length rest)))%nat.
Proof.
  unfold scan.
  repeat match goal with
         | |- context [if ?c then _ else _] => destruct c
         | |- context [match ?l with [] => _ | _ :: _ => _ end] => destruct l
         end; simpl; lia.
Qed.

(** The loop is never cut short: any fuel beyond the length of the input
    gives the same result. *)
Lemma decode_loop_fuel errors fuel1 :
  forall fuel2 pos bs,
    (List.length bs <= fuel1)%nat -> (List.length bs <= fuel2)%nat ->
    decode_loop fuel1 errors pos bs = decode_loop fuel2 errors pos bs.
Proof.
  induction fuel1 as [|f1 IH]; intros fuel2 pos bs H1 H2.
  - destruct bs; [|simpl in H1; lia]. destruct fuel2; reflexivity.
  - destruct bs as [|b0 rest]; [destruct fuel2; reflexivity|].
    destruct fuel2 as [|f2]; [simpl in H2; lia|].
    simpl in H1, H2.
    assert (Hn := span_positive b0 rest).
    cbn [decode_loop].
    change (List.length (b0 :: rest)) with (S (List.length rest)).
    set (n := span (scan b0 rest) (S (List.length rest))) in *.
    assert (Hlen : (List.length (skipn n (b0 :: rest)) <= List.length rest)%nat).
    { rewrite length_skipn. cbn [List.length]. clearbody n. lia. }
    rewrite (IH f2 (pos + n)%nat (skipn n (b0 :: rest))) by lia.
    reflexivity.
Qed.

Lemma decode_loop_ignore_total fuel :
  forall pos bs, exists s, decode_loop fuel Ignore pos bs = inr s.
Proof.
  induction fuel as [|f IH]; intros pos bs.
  - exists []. reflexivity.
  - destruct bs as [|b0 rest]; [exists []; reflexivity|].
    cbn [decode_loop].
    destruct (IH (pos + span (scan b0 rest) (List.length (b0 :: rest)))%nat
                 (skipn (span (scan b0 rest) (List.length (b0 :: rest)))
                        (b0 :: rest))) as [s Hs].
    rewrite Hs. destruct (scan b0 rest); eauto.
Qed.

(** On input the strict decoder accepts, ignoring errors changes
    nothing. *)
Lemma decode_loop_ignore_strict fuel :
  forall pos bs s,
    decode_loop fuel Strict pos bs = inr s ->
    decode_loop fuel Ignore pos bs = inr s.
Proof.
  induction fuel as [|f IH]; intros pos bs s H.
  - exact H.
  - destruct bs as [|b0 rest]; [exact H|].
    cbn [decode_loop] in *.
    destruct (scan b0 rest); try discriminate.
    destruct (decode_loop f Strict _ _) eqn:E; try discriminate.
    rewrite (IH _ _ _ E). exact H.
Qed.

Lemma decode_ignore_total data :
  exists s, decode Ignore data = inr s.
Proof. apply decode_loop_ignore_total. Qed.

Lemma decode_ignore_strict data s :
  decode Strict data = inr s -> decode Ignore data = inr s.
Proof. apply decode_loop_ignore_strict. Qed.

End Decoder.

(** ** The handler, case by case *)

Section Handler.

Variable W : World.

Lemma no_credential_key :
  no_credential W -> truthy (openai_key W) = false.
Proof.
  unfold no_credential, openai_key, getenv.
  destruct (environ W (lit "OPENAI_API_KEY")) as [v|].
  - intros ->. reflexivity.
  - reflexivity.
Qed.

Lemma produce_summary_no_credential t st :
  no_credential W -> produce_summary W t st = heuristic_summarize t.
Proof.
  intros H. unfold produce_summary.
  rewrite (no_credential_key H). reflexivity.
Qed.

(** Whatever the [try] block raises, the producer answers with the
    heuristic summary. *)
Lemma produce_summary_fallback t st e :
  external_model W (openai_key W) t st = inl e ->
  produce_summary W t st = heuristic_summarize t.
Proof.
  intros H. unfold produce_summary. rewrite H.
  destruct (truthy _); reflexivity.
Qed.

Lemma read_file_bytes_accepted f :
  accepted W f ->
  exists s, Utf8.decode Utf8.Ignore (content f) = inr s
            /\ read_file_bytes W f = inr s.
Proof.
  intros H. unfold read_file_bytes. rewrite H.
  destruct (decode_ignore_total (content f)) as [s Hs].
  exists s. rewrite Hs. split; reflexivity.
Qed.

Lemma read_file_bytes_rejected f :
  endswith (str_lower W (filename f)) (lit ".txt") = false ->
  read_file_bytes W f = inl (Http unsupported_format).
Proof. intros H. unfold read_file_bytes. rewrite H. reflexivity. Qed.

(** Past validation the handler returns what the producer makes of the
    effective text. *)
Lemma summarize_validated form :
  passes_validation W form ->
  exists t, effective_text form t
            /\ summarize W form = inr (produce_summary W t (summary_type form)).
Proof.
  unfold passes_validation, effective_text, summarize.
  destruct form as [t [f|] st]; cbn [file text summary_type]; intros H.
  - destruct (read_file_bytes_accepted f H) as [s [Hd Hr]].
    exists s. split; [exact Hd|].
    rewrite andb_false_r. cbn. rewrite Hr. reflexivity.
  - destruct t as [t|]; [|discriminate].
    exists t. split; [reflexivity|].
    cbn in H. cbn. rewrite H. reflexivity.
Qed.

Lemma effective_text_unique form t1 t2 :
  effective_text form t1 -> effective_text form t2 -> t1 = t2.
Proof.
  unfold effective_text. destruct (file form); congruence.
Qed.

End Handler.

(** ** The heuristic path *)

Section Heuristic.

Lemma list_or_length {A} (l : list A) (d : A) :
  (1 <= List.length (list_or (firstn 5 l) [d]) <= 5)%nat.
Proof.
  assert (H := firstn_le_length 5 l).
  destruct (firstn 5 l); simpl in *; lia.
Qed.

Lemma heuristic_insights_bounds t :
  (1 <= List.length (insights (heuristic_summarize t)) <= 5)%nat.
Proof. apply list_or_length. Qed.

Lemma heuristic_model_used t :
  model_used (heuristic_summarize t) = lit "heuristic".
Proof. reflexivity. Qed.

Lemma filter_all_blank (ls : list str) :
  Forall (fun ln => strip ln = []) ls ->
  filter (fun ln => truthy (strip ln)) ls = [].
Proof.
  induction 1 as [|ln ls Hln _ IH]; [reflexivity|].
  simpl. rewrite Hln. exact IH.
Qed.

Lemma lstrip_whitespace s :
  Forall (fun c => isspace c = true) s -> lstrip s = [].
Proof.
  induction 1 as [|c s Hc _ IH]; [reflexivity|].
  simpl. rewrite Hc. exact IH.
Qed.

Lemma strip_whitespace s :
  Forall (fun c => isspace c = true) s -> strip s = [].
Proof.
  intros H. unfold strip, rstrip. rewrite (lstrip_whitespace s H). reflexivity.
Qed.

(** The lines of a text are made of its characters. *)
Lemma splitlines_from_chars (P : N -> Prop) n :
  forall s cur,
    (List.length s <= n)%nat -> Forall P cur -> Forall P s ->
    Forall (Forall P) (splitlines_from cur s).
Proof.
  induction n as [|n IH]; intros s cur Hn Hcur Hs.
  - destruct s; [|simpl in Hn; lia].
    simpl. destruct cur; repeat constructor.
    apply Forall_rev in Hcur. exact Hcur.
  - destruct s as [|c s']; simpl.
    + destruct cur; repeat constructor.
      apply Forall_rev in Hcur. exact Hcur.
    + simpl in Hn. inversion Hs as [|? ? Hc Hs']; subst.
      destruct (is_linebreak c).
      * constructor; [apply Forall_rev; exact Hcur|].
        destruct s' as [|d s'']; [apply IH; auto; simpl; lia|].
        inversion Hs' as [|? ? Hd Hs'']; subst. simpl in Hn.
        destruct ((c =? 13) && (d =? 10)); apply IH; auto; simpl; lia.
      * apply IH; auto; lia.
Qed.

(** A text of white space only has no line worth keeping. *)
Lemma whitespace_lines_blank t :
  Forall (fun c => isspace c = true) t ->
  Forall (fun ln => strip ln = []) (splitlines t).
Proof.
  intros H.
  assert (L := splitlines_from_chars (fun c => isspace c = true)
                 (List.length t) t [] (le_n _) (Forall_nil _) H).
  unfold splitlines.
  induction L as [|ln ls Hln _ IH]; constructor; auto.
  apply strip_whitespace. exact Hln.
Qed.

End Heuristic.

(** ** Concrete runs *)

Example heuristic_two_lines :
  insights (heuristic_summarize (lit "a" ++ nl ++ lit " b  "))
  = [lit "a"; lit "b"; lit "a"; lit "b"].
Proof. reflexivity. Qed.

Example splitlines_crlf :
  splitlines (lit "a" ++ [0x0D; 0x0A; 0x0A] ++ lit " b" ++ nl)
  = [lit "a"; []; lit " b"].
Proof. reflexivity. Qed.

Example decode_strict_rejects :
  Utf8.decode Utf8.Strict (content garbled) = inl (Utf8.UnicodeDecodeError 1).
Proof. reflexivity. Qed.

Example decode_euro_sign :
  Utf8.decode Utf8.Strict [xe2; x82; xac] = inr [0x20AC].
Proof. reflexivity. Qed.

Example model_answer_used :
  summarize answering (pasted (lit "hello") (lit "short"))
  = inr {| purpose := []; insights := []; risks := []; next_steps := [];
           notes := None; model_used := lit "gpt-4o-mini" |}.
Proof. vm_compute. reflexivity. Qed.

Example timeout_falls_back :
  summarize timing_out (pasted (lit "hello") (lit "short"))
  = inr (heuristic_summarize (lit "hello")).
Proof. vm_compute. reflexivity. Qed.

(** ** What the error handlers do with a span in error *)

Section Handlers.

Import Utf8.

Lemma decode_loop_ignore_sequences fuel :
  forall pos bs,
    decode_loop fuel Ignore pos bs = inr (flat_map dropped (sequences fuel bs)).
Proof.
  induction fuel as [|f IH]; intros pos bs; [reflexivity|].
  destruct bs as [|b0 rest]; [reflexivity|].
  cbn [decode_loop sequences flat_map]. rewrite IH.
  destruct (scan b0 rest); reflexivity.
Qed.

Lemma decode_loop_replace_sequences fuel :
  forall pos bs,
    decode_loop fuel Replace pos bs = inr (flat_map marked (sequences fuel bs)).
Proof.
  induction fuel as [|f IH]; intros pos bs; [reflexivity|].
  destruct bs as [|b0 rest]; [reflexivity|].
  cbn [decode_loop sequences flat_map]. rewrite IH.
  destruct (scan b0 rest); reflexivity.
Qed.

End Handlers.

(** ** Failures of the model call *)

Section ModelFailures.

Variable W : World.
Variables key t st : str.

Lemma brace_span_missing txt :
  find 0x7B txt = (-1)%Z \/ rfind 0x7D txt = (-1)%Z -> brace_span txt = [].
Proof.
  unfold brace_span. intros [-> | ->]; simpl; [reflexivity|].
  rewrite andb_false_r. reflexivity.
Qed.

Lemma model_failure_raises :
  model_failure W key t st -> exists e, external_model W key t st = inl e.
Proof.
  intros H. unfold external_model.
  destruct (import_httpx W) eqn:Himp; [|eexists; reflexivity].
  cbn [bind ret raise Monad_either Exception_either].
  destruct H as [Hi | Hp | Hp | status body Hp Hs | status body data Hp Hj Hb
                | status body data Hp Hj Hb].
  - congruence.
  - rewrite Hp. eexists; reflexivity.
  - rewrite Hp. eexists; reflexivity.
  - rewrite Hp. cbn [fst snd]. rewrite Hs. eexists; reflexivity.
  - rewrite Hp. cbn [fst snd].
    destruct (is_success status); [|eexists; reflexivity].
    rewrite Hj. rewrite (brace_span_missing _ Hb).
    eexists; reflexivity.
  - rewrite Hp. cbn [fst snd].
    destruct (is_success status); [|eexists; reflexivity].
    rewrite Hj. unfold json_loads.
    destruct (brace_span (py_str W data)); [eexists; reflexivity|].
    rewrite Hb. eexists; reflexivity.
Qed.

End ModelFailures.

(** ** Further properties: the heuristic path *)

Section Insights.

Lemma insights_unfold t :
  insights (heuristic_summarize t)
  = list_or
      (firstn 5 (firstn 3 (salient_lines t)
                 ++ (if (3 <=? List.length (salient_lines t))%nat
                     then skipn (List.length (salient_lines t) - 3)%nat
                                (salient_lines t)
                     else salient_lines t)))
      [placeholder].
Proof. reflexivity. Qed.

Lemma insights_blank t :
  no_salient_line t -> insights (heuristic_summarize t) = [placeholder].
Proof.
  intros H. rewrite insights_unfold. unfold salient_lines.
  rewrite (filter_all_blank _ H). reflexivity.
Qed.

Lemma lstrip_idempotent s : lstrip (lstrip s) = lstrip s.
Proof.
  induction s as [|c s IH]; [reflexivity|].
  simpl. destruct (isspace c) eqn:E; [exact IH|].
  simpl. rewrite E. reflexivity.
Qed.

Lemma lstrip_snoc w c :
  isspace c = false -> lstrip (w ++ [c]) = lstrip w ++ [c].
Proof.
  intros Hc. induction w as [|x w IH]; simpl.
  - rewrite Hc. reflexivity.
  - destruct (isspace x); [exact IH | reflexivity].
Qed.

Lemma rstrip_cons c u :
  isspace c = false -> rstrip (c :: u) = c :: rstrip u.
Proof.
  intros Hc. unfold rstrip. simpl.
  rewrite (lstrip_snoc _ _ Hc), rev_app_distr. reflexivity.
Qed.

Lemma rstrip_idempotent s : rstrip (rstrip s) = rstrip s.
Proof.
  unfold rstrip. rewrite rev_involutive, lstrip_idempotent. reflexivity.
Qed.

(** [lstrip] leaves a text that does not begin with white space. *)
Lemma lstrip_rstrip_lstrip s : lstrip (rstrip (lstrip s)) = rstrip (lstrip s).
Proof.
  induction s as [|c s IH]; [reflexivity|].
  simpl. destruct (isspace c) eqn:E; [exact IH|].
  rewrite (rstrip_cons _ _ E). simpl. rewrite E. reflexivity.
Qed.

Lemma strip_idempotent s : strip (strip s) = strip s.
Proof.
  unfold strip. rewrite lstrip_rstrip_lstrip. apply rstrip_idempotent.
Qed.

Lemma lstrip_Forall (P : N -> Prop) s : Forall P s -> Forall P (lstrip s).
Proof.
  induction 1 as [|c s Hc Hs IH]; simpl; [constructor|].
  destruct (isspace c); [exact IH | constructor; assumption].
Qed.

Lemma strip_Forall (P : N -> Prop) s : Forall P s -> Forall P (strip s).
Proof.
  intros H. unfold strip, rstrip.
  apply Forall_rev, lstrip_Forall, Forall_rev, lstrip_Forall, H.
Qed.

Lemma firstn_Forall {A} (P : A -> Prop) n (l : list A) :
  Forall P l -> Forall P (firstn n l).
Proof.
  intros H. revert n. induction H; intros [|n]; simpl; constructor; auto.
Qed.

Lemma skipn_Forall {A} (P : A -> Prop) n (l : list A) :
  Forall P l -> Forall P (skipn n l).
Proof.
  intros H. revert n. induction H; intros [|n]; simpl; auto.
Qed.

(** No line of a text holds a line boundary. *)
Lemma splitlines_from_no_linebreak n :
  forall s cur,
    (List.length s <= n)%nat -> no_linebreak cur ->
    Forall no_linebreak (splitlines_from cur s).
Proof.
  induction n as [|n IH]; intros s cur Hn Hcur.
  - destruct s; [|simpl in Hn; lia].
    simpl. destruct cur; repeat constructor.
    apply Forall_rev in Hcur. exact Hcur.
  - destruct s as [|c s']; simpl.
    + destruct cur; repeat constructor.
      apply Forall_rev in Hcur. exact Hcur.
    + simpl in Hn. destruct (is_linebreak c) eqn:E.
      * constructor; [apply Forall_rev; exact Hcur|].
        destruct s' as [|d s'']; [apply IH; [simpl; lia | constructor]|].
        simpl in Hn.
        destruct ((c =? 13) && (d =? 10));
          apply IH; try constructor; simpl; lia.
      * apply IH; [lia | constructor; assumption].
Qed.

Lemma salient_lines_invariant t :
  Forall (fun ln => ln <> [] /\ strip ln = ln /\ no_linebreak ln)
         (salient_lines t).
Proof.
  unfold salient_lines, splitlines.
  assert (L := splitlines_from_no_linebreak (List.length t) t []
                 (le_n _) (Forall_nil _)).
  induction L as [|ln ls Hln _ IH]; simpl; [constructor|].
  destruct (truthy (strip ln)) eqn:E; [|exact IH].
  simpl. constructor; [|exact IH].
  split; [intros Hz; rewrite Hz in E; discriminate|].
  split; [apply strip_idempotent | apply strip_Forall; exact Hln].
Qed.

End Insights.

Section LineEndings.

Lemma splitlines_from_lf l :
  forall cur rest,
    no_linebreak l ->
    splitlines_from cur (l ++ 0x0A :: rest)
    = (rev cur ++ l) :: splitlines_from [] rest.
Proof.
  induction l as [|c l IH]; intros cur rest H.
  - simpl. rewrite app_nil_r. destruct rest; reflexivity.
  - inversion H as [|? ? Hc Hl]; subst.
    simpl. rewrite Hc. rewrite (IH (c :: cur) rest Hl).
    simpl. rewrite <- app_assoc. reflexivity.
Qed.

Lemma splitlines_from_crlf l :
  forall cur rest,
    no_linebreak l ->
    splitlines_from cur (l ++ 0x0D :: 0x0A :: rest)
    = (rev cur ++ l) :: splitlines_from [] rest.
Proof.
  induction l as [|c l IH]; intros cur rest H.
  - simpl. rewrite app_nil_r. reflexivity.
  - inversion H as [|? ? Hc Hl]; subst.
    simpl. rewrite Hc. rewrite (IH (c :: cur) rest Hl).
    simpl. rewrite <- app_assoc. reflexivity.
Qed.

Lemma splitlines_unlines_lf lines :
  Forall no_linebreak lines -> splitlines (unlines [0x0A] lines) = lines.
Proof.
  unfold splitlines.
  induction 1 as [|l ls Hl _ IH]; [reflexivity|].
  simpl. rewrite <- app_assoc. cbn [app].
  rewrite (splitlines_from_lf l [] _ Hl). simpl. f_equal. exact IH.
Qed.

Lemma splitlines_unlines_crlf lines :
  Forall no_linebreak lines -> splitlines (unlines [0x0D; 0x0A] lines) = lines.
Proof.
  unfold splitlines.
  induction 1 as [|l ls Hl _ IH]; [reflexivity|].
  simpl. rewrite <- app_assoc. cbn [app].
  rewrite (splitlines_from_crlf l [] _ Hl). simpl. f_equal. exact IH.
Qed.

Lemma heuristic_summarize_ext t1 t2 :
  splitlines t1 = splitlines t2 ->
  heuristic_summarize t1 = heuristic_summarize t2.
Proof. intros H. unfold heuristic_summarize. rewrite H. reflexivity. Qed.

End LineEndings.

(** X6: a text with one or two non-blank lines has every such line twice
    among its insights: the lines in order, then the same lines again. *)
Theorem few_lines_repeated (t : str) :
  salient_lines t <> [] ->
  (List.length (salient_lines t) < 3)%nat ->
  insights (heuristic_summarize t) = salient_lines t ++ salient_lines t.
Proof.
  intros Hne Hlen. rewrite insights_unfold.
  destruct (salient_lines t) as [|a [|b [|c l]]];
    [congruence | reflexivity | reflexivity | simpl in Hlen; lia].
Qed.

Lemma few_lines_repeated_witness :
  insights (heuristic_summarize (lit "a" ++ nl ++ lit " b  "))
  = [lit "a"; lit "b"; lit "a"; lit "b"].
Proof.
  apply (few_lines_repeated (lit "a" ++ nl ++ lit " b  ")).
  - vm_compute. discriminate.
  - vm_compute. lia.
Defined.

(** X7: a text with three or more non-blank lines has exactly five
    insights: its first three lines, then the first two of its last three
    lines; the third of the last three is cut. *)
Theorem many_lines_five_insights (t : str) :
  (3 <= List.length (salient_lines t))%nat ->
  insights (heuristic_summarize t)
  = firstn 3 (salient_lines t)
    ++ firstn 2 (skipn (List.length (salient_lines t) - 3) (salient_lines t))
  /\ List.length (insights (heuristic_summarize t)) = 5%nat.
Proof.
  intros H. rewrite insights_unfold.
  destruct (Nat.leb_spec 3 (List.length (salient_lines t))) as [_|]; [|lia].
  set (L := salient_lines t) in *.
  assert (H3 : List.length (firstn 3 L) = 3%nat)
    by (rewrite length_firstn; lia).
  assert (Ht : List.length (skipn (List.length L - 3) L) = 3%nat)
    by (rewrite length_skipn; lia).
  assert (E : firstn 5 (firstn 3 L ++ skipn (List.length L - 3) L)
              = firstn 3 L ++ firstn 2 (skipn (List.length L - 3) L)).
  { rewrite firstn_app, H3, firstn_firstn. reflexivity. }
  rewrite E.
  assert (Hl : List.length (firstn 3 L ++ firstn 2 (skipn (List.length L - 3) L))
               = 5%nat).
  { rewrite length_app, H3, length_firstn, Ht. reflexivity. }
  destruct (firstn 3 L ++ firstn 2 (skipn (List.length L - 3) L)) eqn:D;
    [discriminate Hl|].
  split; [reflexivity | exact Hl].
Qed.

Lemma many_lines_five_insights_witness :
  (3 <= List.length (salient_lines (lit "a" ++ nl ++ lit "b" ++ nl ++ lit "c")))%nat
  /\ insights (heuristic_summarize (lit "a" ++ nl ++ lit "b" ++ nl ++ lit "c"))
     = [lit "a"; lit "b"; lit "c"; lit "a"; lit "b"].
Proof.
  assert (H : (3 <= List.length
                     (salient_lines (lit "a" ++ nl ++ lit "b" ++ nl ++ lit "c")))%nat)
    by (vm_compute; lia).
  split; [exact H|].
  exact (proj1 (many_lines_five_insights _ H)).
Defined.

(** X8: every insight of the heuristic path is non-empty, carries no
    leading or trailing white space and no line boundary, and is either
    the placeholder or a stripped line of the text. *)
Theorem insights_are_stripped_lines (t : str) :
  Forall (fun s => s <> [] /\ strip s = s /\ no_linebreak s)
         (insights (heuristic_summarize t))
  /\ (forall s, In s (insights (heuristic_summarize t)) ->
        s = placeholder
        \/ exists ln, In ln (splitlines t) /\ strip ln <> [] /\ s = strip ln).
Proof.
  rewrite insights_unfold.
  assert (Inv := salient_lines_invariant t).
  set (L := salient_lines t) in *.
  set (tail := if (3 <=? List.length L)%nat
               then skipn (List.length L - 3) L else L).
  assert (Ht : Forall (fun s => In s L) tail).
  { unfold tail. destruct (3 <=? List.length L)%nat.
    - apply skipn_Forall. apply Forall_forall. auto.
    - apply Forall_forall. auto. }
  assert (Hall : Forall (fun s => In s L) (firstn 5 (firstn 3 L ++ tail))).
  { apply firstn_Forall, Forall_app. split; [|exact Ht].
    apply firstn_Forall, Forall_forall. auto. }
  destruct (firstn 5 (firstn 3 L ++ tail)) as [|x xs] eqn:D.
  - simpl. split.
    + constructor; [|constructor].
      split; [discriminate|]. split; [reflexivity|].
      unfold no_linebreak, placeholder. simpl. repeat constructor.
    + intros s [<-|[]]. left. reflexivity.
  - cbn [list_or]. split.
    + rewrite Forall_forall in *. intros s Hs. apply Inv, Hall, Hs.
    + intros s Hs. right.
      rewrite Forall_forall in Hall. apply Hall in Hs.
      unfold L, salient_lines in Hs.
      apply in_map_iff in Hs. destruct Hs as [ln [<- Hln]].
      apply filter_In in Hln. destruct Hln as [Hin Htr].
      exists ln. split; [exact Hin|]. split; [|reflexivity].
      intros Hz. rewrite Hz in Htr. discriminate.
Qed.

(** X9: for lines without line boundaries, writing them with CR LF or
    with LF after each line makes no difference: [splitlines] gives the
    lines back either way, and the heuristic summaries are the same. *)
Theorem line_endings_irrelevant (lines : list str) :
  Forall no_linebreak lines ->
  splitlines (unlines [0x0D; 0x0A] lines) = lines
  /\ splitlines (unlines [0x0A] lines) = lines
  /\ heuristic_summarize (unlines [0x0D; 0x0A] lines)
     = heuristic_summarize (unlines [0x0A] lines).
Proof.
  intros H.
  assert (H1 := splitlines_unlines_crlf lines H).
  assert (H2 := splitlines_unlines_lf lines H).
  repeat split; auto.
  apply heuristic_summarize_ext. congruence.
Qed.

Lemma line_endings_irrelevant_witness :
  Forall no_linebreak [lit "one"; []; lit " two "]
  /\ heuristic_summarize (lit "one" ++ [0x0D; 0x0A; 0x0D; 0x0A]
                          ++ lit " two " ++ [0x0D; 0x0A])
     = heuristic_summarize (lit "one" ++ [0x0A; 0x0A] ++ lit " two " ++ [0x0A]).
Proof.
  assert (H : Forall no_linebreak [lit "one"; []; lit " two "])
    by (repeat constructor).
  split; [exact H|].
  exact (proj2 (proj2 (line_endings_irrelevant _ H))).
Defined.

(** X10: with no credential, a validated request whose effective text has
    no non-blank line (an empty upload, pasted white space) is not
    rejected: it gets a summary whose only insight is the placeholder. *)
Theorem blank_input_accepted (W : World) (form : Form) (t : str) :
  no_credential W ->
  passes_validation W form ->
  effective_text form t ->
  no_salient_line t ->
  exists out,
    summarize W form = inr out /\ insights out = [placeholder].
Proof.
  intros Hn Hv He Hb.
  destruct (summarize_validated W form Hv) as [t' [Ht' Hs]].
  rewrite (effective_text_unique _ _ _ Ht' He) in Hs.
  rewrite (produce_summary_no_credential W _ _ Hn) in Hs.
  exists (heuristic_summarize t). split; [exact Hs|].
  apply insights_blank. exact Hb.
Qed.

Lemma blank_input_accepted_witness :
  passes_validation offline
    {| text := None; file := Some empty_txt; summary_type := lit "short" |}
  /\ exists out,
      summarize offline
        {| text := None; file := Some empty_txt; summary_type := lit "short" |}
      = inr out
      /\ insights out = [placeholder].
Proof.
  split; [reflexivity|].
  apply (blank_input_accepted offline _ []);
    [exact I | reflexivity | reflexivity | constructor].
Defined.

(** ** Further properties: the handler and the model call *)

Section ModelCall.

Variable W : World.

Lemma validate_inv p i r n used out :
  validate W p i r n used = inr out ->
  as_str W p = Some (purpose out)
  /\ as_str_list W i = Some (insights out)
  /\ as_str_list W r = Some (risks out)
  /\ as_str_list W n = Some (next_steps out)
  /\ notes out = None
  /\ model_used out = used.
Proof.
  unfold validate.
  destruct (as_str W p), (as_str_list W i), (as_str_list W r),
    (as_str_list W n); try discriminate.
  intros H. injection H as <-. repeat split.
Qed.

(** What a successful model call went through. *)
Lemma external_model_inv key t st out :
  external_model W key t st = inr out ->
  import_httpx W = true
  /\ exists status body data items,
      post W 60 model_url (model_payload t st) (model_headers key)
      = Responded status body
      /\ is_success status = true
      /\ response_json W body = Some data
      /\ brace_span (py_str W data) <> []
      /\ json_parser W (brace_span (py_str W data)) = Some (PyDict items)
      /\ validate W
           (match assoc (lit "purpose") items with
            | Some v => v | None => PyText [] end)
           (py_or (match assoc (lit "insights") items with
                   | Some v => v | None => PyList [] end) (PyList []))
           (py_or (match assoc (lit "risks") items with
                   | Some v => v | None => PyList [] end) (PyList []))
           (py_or (match assoc (lit "next_steps") items with
                   | Some v => v | None => PyList [] end) (PyList []))
           (lit "gpt-4o-mini")
         = inr out.
Proof.
  unfold external_model.
  destruct (import_httpx W); [|discriminate].
  cbn [bind ret raise Monad_either Exception_either].
  destruct (post W 60 model_url (model_payload t st) (model_headers key))
    as [| |status body] eqn:Hp; try discriminate.
  cbn [fst snd].
  destruct (is_success status) eqn:Hs; [|discriminate].
  destruct (response_json W body) as [data|] eqn:Hj; [|discriminate].
  unfold json_loads.
  destruct (brace_span (py_str W data)) as [|c b] eqn:Hb;
    [cbn; discriminate|].
  destruct (json_parser W (c :: b)) as [parsed|] eqn:Hl;
    [|cbn; discriminate].
  destruct parsed; try (cbn; discriminate).
  cbn [dict_get bind ret raise Monad_either Exception_either].
  intros H. split; [reflexivity|].
  exists status, body, data, items.
  split; [first [reflexivity | exact Hp]|].
  split; [first [reflexivity | exact Hs]|].
  split; [first [reflexivity | exact Hj]|].
  split; [try rewrite Hb; discriminate|].
  split; [try rewrite Hb; exact Hl | exact H].
Qed.

Lemma external_model_marks key t st out :
  external_model W key t st = inr out ->
  model_used out = lit "gpt-4o-mini" /\ notes out = None.
Proof.
  intros H. apply external_model_inv in H.
  destruct H as [_ [status [body [data [items [_ [_ [_ [_ [_ Hv]]]]]]]]]].
  apply validate_inv in Hv. tauto.
Qed.

Lemma produce_summary_cases t st :
  produce_summary W t st = heuristic_summarize t
  \/ (truthy (openai_key W) = true
      /\ external_model W (openai_key W) t st = inr (produce_summary W t st)).
Proof.
  unfold produce_summary.
  destruct (truthy (openai_key W)); [|left; reflexivity].
  destruct (external_model W (openai_key W) t st);
    [left; reflexivity | right; split; reflexivity].
Qed.

Lemma summarize_cases form :
  (passes_validation W form
   /\ exists t, effective_text form t
                /\ summarize W form
                   = inr (produce_summary W t (summary_type form)))
  \/ (file form = None /\ text_truthy (text form) = false
      /\ summarize W form = inl (Http missing_input))
  \/ (exists f, file form = Some f
                /\ endswith (str_lower W (filename f)) (lit ".txt") = false
                /\ summarize W form = inl (Http unsupported_format)).
Proof.
  destruct form as [t [f|] st].
  - destruct (endswith (str_lower W (filename f)) (lit ".txt")) eqn:E.
    + left. split; [exact E|]. apply summarize_validated. exact E.
    + right; right. exists f. split; [reflexivity|]. split; [exact E|].
      unfold summarize. cbn [text file summary_type file_truthy].
      rewrite andb_false_r. cbn.
      rewrite (read_file_bytes_rejected W f E). reflexivity.
  - destruct (text_truthy t) eqn:E.
    + left. split; [exact E|]. apply summarize_validated. exact E.
    + right; left. repeat split; [exact E|].
      unfold summarize. cbn [text file summary_type]. rewrite E. reflexivity.
Qed.

End ModelCall.

Section Braces.

Lemma find_lower c s : (-1 <= find c s)%Z.
Proof.
  induction s as [|x s IH]; simpl; [lia|].
  destruct (x =? c); [lia|].
  destruct (Z.eqb_spec (find c s) (-1)); lia.
Qed.

Lemma rfind_lower c s : (-1 <= rfind c s)%Z.
Proof.
  induction s as [|x s IH]; simpl; [lia|].
  destruct (Z.eqb_spec (rfind c s) (-1)); [destruct (x =? c); lia | lia].
Qed.

Lemma find_absent c s : ~ In c s -> find c s = (-1)%Z.
Proof.
  induction s as [|x s IH]; intros H; [reflexivity|].
  simpl. destruct (N.eqb_spec x c) as [->|_]; [elim H; left; reflexivity|].
  rewrite IH by (intros Hin; apply H; right; exact Hin). reflexivity.
Qed.

Lemma rfind_absent c s : ~ In c s -> rfind c s = (-1)%Z.
Proof.
  induction s as [|x s IH]; intros H; [reflexivity|].
  simpl. rewrite IH by (intros Hin; apply H; right; exact Hin).
  simpl. destruct (N.eqb_spec x c) as [->|_]; [elim H; left|]; reflexivity.
Qed.

Lemma find_first c pre post :
  ~ In c pre -> find c (pre ++ c :: post) = Z.of_nat (List.length pre).
Proof.
  induction pre as [|x pre IH]; intros H.
  - simpl. rewrite N.eqb_refl. reflexivity.
  - cbn [app find List.length].
    destruct (N.eqb_spec x c) as [->|_]; [elim H; left; reflexivity|].
    rewrite IH by (intros Hin; apply H; right; exact Hin).
    destruct (Z.eqb_spec (Z.of_nat (List.length pre)) (-1)); lia.
Qed.

Lemma rfind_last c pre post :
  ~ In c post -> rfind c (pre ++ c :: post) = Z.of_nat (List.length pre).
Proof.
  intros H. induction pre as [|x pre IH].
  - simpl. rewrite (rfind_absent _ _ H). simpl.
    rewrite N.eqb_refl. reflexivity.
  - cbn [app rfind List.length]. rewrite IH.
    destruct (Z.eqb_spec (Z.of_nat (List.length pre)) (-1)); lia.
Qed.

Lemma find_split (c : N) (s : str) :
  ~ In c s
  \/ exists pre post, s = pre ++ c :: post /\ ~ In c pre.
Proof.
  induction s as [|x s IH]; [left; intros H; exact H|].
  destruct (N.eqb_spec x c) as [->|Hx].
  - right. exists [], s. split; [reflexivity | intros H; exact H].
  - destruct IH as [IH | [pre [post [-> Hpre]]]].
    + left. intros [E|Hin]; [exact (Hx E) | exact (IH Hin)].
    + right. exists (x :: pre), post. split; [reflexivity|].
      intros [E|Hin]; [exact (Hx E) | exact (Hpre Hin)].
Qed.

Lemma rfind_split (c : N) (s : str) :
  ~ In c s
  \/ exists pre post, s = pre ++ c :: post /\ ~ In c post.
Proof.
  induction s as [|x s IH]; [left; intros H; exact H|].
  destruct IH as [IH | [pre [post [-> Hpost]]]].
  - destruct (N.eqb_spec x c) as [->|Hx].
    + right. exists [], s. split; [reflexivity | exact IH].
    + left. intros [E|Hin]; [exact (Hx E) | exact (IH Hin)].
  - right. exists (x :: pre), post. split; [reflexivity | exact Hpost].
Qed.

Lemma firstn_snoc {A} (a : list A) (x : A) (b : list A) :
  firstn (List.length a + 1) (a ++ x :: b) = a ++ [x].
Proof.
  induction a as [|y a IH]; [reflexivity|].
  simpl. f_equal. exact IH.
Qed.

Lemma brace_span_found pre mid post :
  ~ In 0x7B pre -> ~ In 0x7D post ->
  brace_span (pre ++ 0x7B :: mid ++ 0x7D :: post) = 0x7B :: mid ++ [0x7D].
Proof.
  intros Hpre Hpost. unfold brace_span.
  rewrite (find_first _ _ _ Hpre).
  replace (pre ++ 0x7B :: mid ++ 0x7D :: post)
    with ((pre ++ 0x7B :: mid) ++ 0x7D :: post)
    by (rewrite <- app_assoc; reflexivity).
  rewrite (rfind_last _ _ _ Hpost).
  destruct (Z.eqb_spec (Z.of_nat (List.length pre)) (-1)); [lia|].
  destruct (Z.eqb_spec (Z.of_nat (List.length (pre ++ 0x7B :: mid))) (-1));
    [lia|].
  cbn [negb andb]. unfold slice.
  rewrite Nat2Z.id, <- app_assoc, skipn_app, skipn_all, Nat.sub_diag.
  cbn [app skipn].
  rewrite length_app. cbn [List.length].
  replace (Z.to_nat (Z.of_nat (List.length pre + S (List.length mid)) + 1
                     - Z.of_nat (List.length pre)))
    with (S (List.length mid + 1)) by lia.
  cbn [firstn]. f_equal. apply firstn_snoc.
Qed.

Lemma brace_span_nonempty txt :
  brace_span txt <> [] ->
  (0 <= find 0x7B txt <= rfind 0x7D txt)%Z.
Proof.
  unfold brace_span, slice.
  assert (Hf := find_lower 0x7B txt). assert (Hr := rfind_lower 0x7D txt).
  destruct (Z.eqb_spec (find 0x7B txt) (-1)) as [E|E];
    [intros H; elim H; reflexivity|].
  destruct (Z.eqb_spec (rfind 0x7D txt) (-1)) as [E'|E'];
    [intros H; elim H; reflexivity|].
  cbn [negb andb]. intros H.
  destruct (Z_le_gt_dec (find 0x7B txt) (rfind 0x7D txt)) as [Hle|Hgt];
    [lia|].
  elim H.
  replace (Z.to_nat (rfind 0x7D txt + 1 - find 0x7B txt)) with 0%nat by lia.
  reflexivity.
Qed.

Lemma brace_span_cases txt :
  brace_span txt = []
  \/ exists pre mid post,
      txt = pre ++ 0x7B :: mid ++ 0x7D :: post
      /\ ~ In 0x7B pre /\ ~ In 0x7D post
      /\ brace_span txt = 0x7B :: mid ++ [0x7D].
Proof.
  destruct (find_split 0x7B txt) as [Hno | [p1 [q1 [E1 Hp1]]]].
  { left. apply brace_span_missing. left. apply find_absent, Hno. }
  destruct (rfind_split 0x7D txt) as [Hno | [p2 [q2 [E2 Hq2]]]].
  { left. apply brace_span_missing. right. apply rfind_absent, Hno. }
  subst txt. rename E2 into E.
  destruct (app_eq_app _ _ _ _ E) as [l [[Ep Eq] | [Ep Eq]]].
  - destruct l as [|x l]; [discriminate Eq|].
    injection Eq as Ex Eq. left.
    unfold brace_span, slice.
    rewrite (find_first _ _ _ Hp1).
    rewrite E, (rfind_last _ _ _ Hq2).
    destruct (negb _ && negb _); [|reflexivity].
    rewrite Ep, length_app. cbn [List.length].
    replace (Z.to_nat (Z.of_nat (List.length p2) + 1
                       - Z.of_nat (List.length p2 + S (List.length l))))
      with 0%nat by lia.
    reflexivity.
  - destruct l as [|x l]; [discriminate Eq|].
    injection Eq as Ex Eq. right.
    exists p1, l, q2. subst q1.
    split; [reflexivity|]. split; [exact Hp1|]. split; [exact Hq2|].
    apply brace_span_found; assumption.
Qed.

End Braces.

(** X2: the marker of a summary tells which path made it.  Either it is
    the heuristic marker and the summary is the heuristic one for the
    effective text, notes included, or it is the model's identifier, the
    notes are absent, a credential was configured and the model call
    returned that very summary. *)
Theorem model_used_marks_path (W : World) (form : Form) (out : SummaryOut) :
  summarize W form = inr out ->
  exists t,
    effective_text form t
    /\ ((out = heuristic_summarize t
         /\ model_used out = lit "heuristic"
         /\ notes out = Some [lit "LLM disabled or key missing."])
        \/ (truthy (openai_key W) = true
            /\ external_model W (openai_key W) t (summary_type form) = inr out
            /\ model_used out = lit "gpt-4o-mini"
            /\ notes out = None)).
Proof.
  intros H.
  destruct (summarize_cases W form)
    as [[_ [t [Ht Hs]]] | [[_ [_ Hs]] | [f [_ [_ Hs]]]]];
    try (rewrite Hs in H; discriminate H).
  rewrite Hs in H. injection H as <-.
  exists t. split; [exact Ht|].
  destruct (produce_summary_cases W t (summary_type form)) as [E | [Hk E]].
  - left. rewrite E. repeat split.
  - right. split; [exact Hk|]. split; [exact E|].
    apply external_model_marks in E. exact E.
Qed.

Lemma model_used_marks_path_witness :
  summarize answering (pasted (lit "hello") (lit "short"))
  = inr {| purpose := []; insights := []; risks := []; next_steps := [];
           notes := None; model_used := lit "gpt-4o-mini" |}
  /\ exists t,
      effective_text (pasted (lit "hello") (lit "short")) t
      /\ external_model answering (openai_key answering) t (lit "short")
         = inr {| purpose := []; insights := []; risks := [];
                  next_steps := []; notes := None;
                  model_used := lit "gpt-4o-mini" |}.
Proof.
  assert (H : summarize answering (pasted (lit "hello") (lit "short"))
              = inr {| purpose := []; insights := []; risks := [];
                       next_steps := []; notes := None;
                       model_used := lit "gpt-4o-mini" |})
    by (vm_compute; reflexivity).
  split; [exact H|].
  destruct (model_used_marks_path answering _ _ H) as [t [Ht [[E _] | [_ [E _]]]]].
  - exfalso. injection Ht as <-. vm_compute in E. discriminate E.
  - exists t. split; [exact Ht | exact E].
Defined.

(** X3: the model's answer is used only when [httpx] could be imported,
    the response had a status from 200 to 299 and a JSON body, its
    rendering holds an opening brace at or before its last closing brace,
    the span between them parses to a JSON object, and the fields taken
    from it (with the empty defaults for missing or falsy ones) pass
    validation; the summary then carries the validated fields. *)
Theorem model_answer_requires
        (W : World) (key t st : str) (out : SummaryOut) :
  external_model W key t st = inr out ->
  import_httpx W = true
  /\ exists status body data items,
      post W 60 model_url (model_payload t st) (model_headers key)
      = Responded status body
      /\ (200 <= status <= 299)%Z
      /\ response_json W body = Some data
      /\ (0 <= find 0x7B (py_str W data) <= rfind 0x7D (py_str W data))%Z
      /\ json_parser W (brace_span (py_str W data)) = Some (PyDict items)
      /\ as_str W (match assoc (lit "purpose") items with
                   | Some v => v | None => PyText [] end)
         = Some (purpose out)
      /\ as_str_list W
           (py_or (match assoc (lit "insights") items with
                   | Some v => v | None => PyList [] end) (PyList []))
         = Some (insights out)
      /\ as_str_list W
           (py_or (match assoc (lit "risks") items with
                   | Some v => v | None => PyList [] end) (PyList []))
         = Some (risks out)
      /\ as_str_list W
           (py_or (match assoc (lit "next_steps") items with
                   | Some v => v | None => PyList [] end) (PyList []))
         = Some (next_steps out).
Proof.
  intros H. apply external_model_inv in H.
  destruct H as [Hi [status [body [data [items [Hp [Hs [Hj [Hb [Hl Hv]]]]]]]]]].
  split; [exact Hi|].
  exists status, body, data, items.
  apply validate_inv in Hv.
  destruct Hv as [V1 [V2 [V3 [V4 _]]]].
  split; [exact Hp|]. split.
  { unfold is_success in Hs. apply andb_true_iff in Hs.
    destruct Hs as [H1 H2]. apply Z.leb_le in H1, H2. lia. }
  split; [exact Hj|]. split; [apply brace_span_nonempty, Hb|].
  split; [exact Hl|]. repeat split; assumption.
Qed.

Lemma model_answer_requires_witness :
  external_model answering (lit "sk-test") (lit "hello") (lit "short")
  = inr {| purpose := []; insights := []; risks := []; next_steps := [];
           notes := None; model_used := lit "gpt-4o-mini" |}
  /\ import_httpx answering = true.
Proof.
  assert (H : external_model answering (lit "sk-test") (lit "hello") (lit "short")
              = inr {| purpose := []; insights := []; risks := [];
                       next_steps := []; notes := None;
                       model_used := lit "gpt-4o-mini" |})
    by (vm_compute; reflexivity).
  split; [exact H|].
  exact (proj1 (model_answer_requires _ _ _ _ _ H)).
Defined.

(** X4: the model call sees the first 12000 characters of the text only:
    whatever follows them changes neither the prompt nor the outcome of
    the call. *)
Theorem model_sees_first_12000 (W : World) (key t rest st : str) :
  Z.of_nat (List.length t) = 12000%Z ->
  prompt (t ++ rest) st = prompt t st
  /\ external_model W key (t ++ rest) st = external_model W key t st.
Proof.
  intros Hlen.
  assert (Hp : prompt (t ++ rest) st = prompt t st).
  { assert (Hs : slice (t ++ rest) 0 12000 = slice t 0 12000).
    { unfold slice. change (Z.to_nat 0) with 0%nat. cbn [skipn].
      replace (Z.to_nat (12000 - 0)) with (List.length t) by lia.
      rewrite firstn_app, Nat.sub_diag, firstn_all. cbn [firstn].
      apply app_nil_r. }
    unfold prompt. rewrite Hs. reflexivity. }
  split; [exact Hp|].
  unfold external_model, model_payload. rewrite Hp. reflexivity.
Qed.

Lemma model_sees_first_12000_witness :
  prompt (List.repeat 0x61 (Z.to_nat 12000) ++ lit "tail") (lit "short")
  = prompt (List.repeat 0x61 (Z.to_nat 12000)) (lit "short").
Proof.
  apply (model_sees_first_12000 offline [] (List.repeat 0x61 (Z.to_nat 12000))).
  rewrite repeat_length. reflexivity.
Defined.

(** X5: the body handed to the JSON parser is the span from the first
    opening brace to the last closing brace.  If the text is some prefix
    without opening brace, an opening brace, a middle part, a closing
    brace and a suffix without closing brace, the body is brace, middle
    part, brace; every text is either of that form or has an empty
    body. *)
Theorem brace_span_shape :
  (forall pre mid post,
      ~ In 0x7B pre -> ~ In 0x7D post ->
      brace_span (pre ++ 0x7B :: mid ++ 0x7D :: post) = 0x7B :: mid ++ [0x7D])
  /\ (forall txt,
        brace_span txt = []
        \/ exists pre mid post,
            txt = pre ++ 0x7B :: mid ++ 0x7D :: post
            /\ ~ In 0x7B pre /\ ~ In 0x7D post
            /\ brace_span txt = 0x7B :: mid ++ [0x7D]).
Proof.
  split.
  - intros. apply brace_span_found; assumption.
  - apply brace_span_cases.
Qed.

(** ** Further properties: reading an upload *)

Section Uploads.

Import Utf8.

Lemma decode_loop_ascii errors bs :
  forall fuel pos,
    Forall (fun b => b < 0x80) bs -> (List.length bs <= fuel)%nat ->
    decode_loop fuel errors pos bs = inr bs.
Proof.
  induction bs as [|b0 rest IH]; intros fuel pos H Hf.
  - destruct fuel; reflexivity.
  - destruct fuel as [|f]; [simpl in Hf; lia|].
    inversion H as [|? ? Hb Hrest]; subst.
    cbn [decode_loop]. unfold scan.
    apply N.ltb_lt in Hb. rewrite Hb. cbn [span skipn].
    rewrite (IH f _ Hrest) by (simpl in Hf; lia). reflexivity.
Qed.

Ltac to_props :=
  repeat match goal with
         | H : _ && _ = true |- _ => apply andb_true_iff in H; destruct H
         | H : _ && _ = false |- _ => apply andb_false_iff in H
         | H : _ || _ = true |- _ => apply orb_true_iff in H
         | H : _ || _ = false |- _ => apply orb_false_iff in H; destruct H
         | H : negb _ = true |- _ => apply negb_true_iff in H
         | H : negb _ = false |- _ => apply negb_false_iff in H
         | H : (_ <? _) = true |- _ => apply N.ltb_lt in H
         | H : (_ <? _) = false |- _ => apply N.ltb_ge in H
         | H : (_ <=? _) = true |- _ => apply N.leb_le in H
         | H : (_ <=? _) = false |- _ => apply N.leb_gt in H
         | H : (_ =? _) = true |- _ => apply N.eqb_eq in H
         | H : (_ =? _) = false |- _ => apply N.eqb_neq in H
         | H : (if ?c then _ else _) = _ |- _ => destruct c eqn:?
         end.

Lemma is_scalar_intro c :
  c <= 0x10FFFF -> (c < 0xD800 \/ 0xDFFF < c) -> is_scalar c = true.
Proof.
  intros H1 H2. unfold is_scalar.
  apply andb_true_iff. split; [apply N.leb_le; exact H1|].
  apply negb_true_iff, andb_false_iff.
  destruct H2 as [H2|H2];
    [left; apply N.leb_gt | right; apply N.leb_gt]; exact H2.
Qed.

(** A well-formed sequence denotes a scalar value. *)
Lemma scan_scalar b0 rest cp len :
  b0 < 256 -> Forall (fun b => b < 256) rest ->
  scan b0 rest = Char cp len -> is_scalar cp = true.
Proof.
  assert (S6 : forall a, N.shiftl a 6 = a * 64)
    by (intros a; apply N.shiftl_mul_pow2).
  assert (S12 : forall a, N.shiftl a 12 = a * 4096)
    by (intros a; apply N.shiftl_mul_pow2).
  assert (S18 : forall a, N.shiftl a 18 = a * 262144)
    by (intros a; apply N.shiftl_mul_pow2).
  intros Hb0 Hrest. unfold scan, is_continuation.
  destruct (b0 <? 0x80) eqn:E0.
  { intros H. injection H as <- _. to_props. apply is_scalar_intro; lia. }
  destruct (b0 <? 0xE0) eqn:E1.
  { destruct (b0 <? 0xC2) eqn:E2; [discriminate|].
    destruct rest as [|b1 r1]; [discriminate|].
    inversion Hrest as [|? ? Hb1 Hr1]; subst.
    destruct (negb _) eqn:C1; [discriminate|].
    intros H. injection H as <- _. rewrite !S6. to_props.
    apply is_scalar_intro; lia. }
  destruct (b0 <? 0xF0) eqn:E2.
  { destruct rest as [|b1 r1]; [discriminate|].
    inversion Hrest as [|? ? Hb1 Hr1]; subst.
    destruct (negb _ || _) eqn:C1; [discriminate|].
    destruct r1 as [|b2 r2]; [discriminate|].
    inversion Hr1 as [|? ? Hb2 Hr2]; subst.
    destruct (negb ((128 <=? b2) && (b2 <? 192))) eqn:C2; [discriminate|].
    intros H. injection H as <- _. rewrite !S6, !S12. to_props;
      apply is_scalar_intro; lia. }
  destruct (b0 <? 0xF5) eqn:E3; [|discriminate].
  destruct rest as [|b1 r1]; [discriminate|].
  inversion Hrest as [|? ? Hb1 Hr1]; subst.
  destruct (negb _ || _) eqn:C1; [discriminate|].
  destruct r1 as [|b2 r2]; [discriminate|].
  inversion Hr1 as [|? ? Hb2 Hr2]; subst.
  destruct (negb ((128 <=? b2) && (b2 <? 192))) eqn:C2; [discriminate|].
  destruct r2 as [|b3 r3]; [discriminate|].
  inversion Hr2 as [|? ? Hb3 Hr3]; subst.
  destruct (negb ((128 <=? b3) && (b3 <? 192))) eqn:C3; [discriminate|].
  intros H. injection H as <- _. rewrite !S6, !S12, !S18. to_props;
    apply is_scalar_intro; lia.
Qed.

Lemma decode_loop_ignore_scalar fuel :
  forall pos bs out,
    Forall (fun b => b < 256) bs ->
    decode_loop fuel Ignore pos bs = inr out ->
    Forall (fun c => is_scalar c = true) out
    /\ (List.length out <= List.length bs)%nat.
Proof.
  induction fuel as [|f IH]; intros pos bs out Hbs H.
  - injection H as <-. split; [constructor | simpl; lia].
  - destruct bs as [|b0 rest];
      [injection H as <-; split; [constructor | simpl; lia]|].
    inversion Hbs as [|? ? Hb0 Hrest]; subst.
    cbn [decode_loop] in H.
    assert (Hn := span_positive b0 rest).
    change (List.length (b0 :: rest)) with (S (List.length rest)) in *.
    set (n := span (scan b0 rest) (S (List.length rest))) in *.
    assert (Hk : Forall (fun b => b < 256) (skipn n (b0 :: rest)))
      by (apply skipn_Forall; exact Hbs).
    assert (Hlen : (List.length (skipn n (b0 :: rest)) <= List.length rest)%nat).
    { rewrite length_skipn. cbn [List.length]. clearbody n. lia. }
    destruct (decode_loop f Ignore (pos + n) (skipn n (b0 :: rest)))
      as [e|out'] eqn:E.
    + destruct (scan b0 rest); discriminate H.
    + destruct (IH _ _ _ Hk E) as [Hs Hl].
      destruct (scan b0 rest) eqn:Sc;
        try (injection H as <-; split; [exact Hs | lia]).
      injection H as <-. split.
      * constructor; [|exact Hs].
        eapply (scan_scalar b0 rest); [exact Hb0 | exact Hrest | exact Sc].
      * simpl. lia.
Qed.

Lemma to_N_bytes data : Forall (fun b => b < 256) (map Byte.to_N data).
Proof.
  induction data as [|x data IH]; constructor; [|exact IH].
  assert (H := Byte.to_N_bounded x). lia.
Qed.

Lemma eqb_refl s : PyStr.eqb s s = true.
Proof.
  induction s as [|c s IH]; [reflexivity|].
  simpl. rewrite N.eqb_refl. exact IH.
Qed.

Lemma endswith_app a b : endswith (a ++ b) b = true.
Proof.
  unfold endswith. rewrite length_app.
  replace (List.length a + List.length b - List.length b)%nat
    with (List.length a) by lia.
  rewrite skipn_app, skipn_all, Nat.sub_diag. simpl. apply eqb_refl.
Qed.

End Uploads.

(** X11: an accepted upload of ASCII bytes only is read unchanged: the
    text has one character per byte, with the byte's value. *)
Theorem ascii_upload_unchanged (W : World) (f : UploadFile) :
  accepted W f ->
  Forall (fun b => Byte.to_N b < 0x80) (content f) ->
  read_file_bytes W f = inr (map Byte.to_N (content f)).
Proof.
  intros Ha Hb. unfold read_file_bytes. rewrite Ha.
  unfold Utf8.decode.
  rewrite decode_loop_ascii; [reflexivity | | lia].
  apply Forall_map. exact Hb.
Qed.

Lemma ascii_upload_unchanged_witness :
  accepted offline notes_txt
  /\ read_file_bytes offline notes_txt = inr (lit "hi" ++ nl ++ lit "yo").
Proof.
  split; [reflexivity|].
  apply (ascii_upload_unchanged offline notes_txt); [reflexivity|].
  repeat constructor.
Defined.

(** X12: whatever the bytes of an upload, the text read from it holds
    Unicode scalar values only (nothing above U+10FFFF, no surrogate) and
    has at most as many characters as the upload has bytes. *)
Theorem upload_text_well_formed (W : World) (f : UploadFile) (s : str) :
  read_file_bytes W f = inr s ->
  Forall (fun c => is_scalar c = true) s
  /\ (List.length s <= List.length (content f))%nat.
Proof.
  unfold read_file_bytes.
  destruct (endswith _ _); [|discriminate].
  destruct (Utf8.decode Utf8.Ignore (content f)) as [e|s'] eqn:E;
    [discriminate|].
  intros H. injection H as <-.
  unfold Utf8.decode in E.
  apply decode_loop_ignore_scalar in E; [|apply to_N_bytes].
  rewrite length_map in E. exact E.
Qed.

Lemma upload_text_well_formed_witness :
  read_file_bytes offline garbled = inr (lit "ab")
  /\ (List.length (lit "ab") <= List.length (content garbled))%nat.
Proof.
  assert (H : read_file_bytes offline garbled = inr (lit "ab"))
    by reflexivity.
  split; [exact H|].
  exact (proj2 (upload_text_well_formed offline garbled _ H)).
Defined.

(** X13: the extension test ignores letter case.  When lower-casing the
    file name is ASCII case folding, as it is for every ASCII name, a name
    that ends in .txt written in any mix of cases is accepted and the
    upload is read. *)
Theorem extension_case_insensitive
        (W : World) (f : UploadFile) (stem ext : str) :
  str_lower W (filename f) = ascii_lower (filename f) ->
  filename f = stem ++ ext ->
  ascii_lower ext = lit ".txt" ->
  accepted W f /\ exists s, read_file_bytes W f = inr s.
Proof.
  intros Hl Hn He.
  assert (Ha : accepted W f).
  { unfold accepted. rewrite Hl, Hn. unfold ascii_lower.
    rewrite map_app. fold (ascii_lower ext). rewrite He.
    apply endswith_app. }
  split; [exact Ha|].
  destruct (read_file_bytes_accepted W f Ha) as [s [_ Hr]]. eauto.
Qed.

Lemma extension_case_insensitive_witness :
  accepted offline notes_txt
  /\ exists s, read_file_bytes offline notes_txt = inr s.
Proof.
  apply (extension_case_insensitive offline notes_txt (lit "Notes") (lit ".TXT"));
    reflexivity.
Defined.

(** ** Further properties: the credential *)

Section Credential.

Lemma lstrip_nil s :
  lstrip s = [] -> Forall (fun c => isspace c = true) s.
Proof.
  induction s as [|c s IH]; [constructor|].
  simpl. destruct (isspace c) eqn:E; [|discriminate].
  intros H. constructor; auto.
Qed.

Lemma lstrip_all_space s :
  Forall (fun c => isspace c = true) (lstrip s) ->
  Forall (fun c => isspace c = true) s.
Proof.
  induction s as [|c s IH]; [constructor|].
  simpl. destruct (isspace c) eqn:E; [|auto].
  intros H. constructor; auto.
Qed.

Lemma strip_nil s :
  strip s = [] -> Forall (fun c => isspace c = true) s.
Proof.
  unfold strip, rstrip. intros H.
  apply lstrip_all_space.
  rewrite <- (rev_involutive (lstrip s)). apply Forall_rev.
  apply lstrip_nil.
  rewrite <- (rev_involutive (lstrip (rev (lstrip s)))), H. reflexivity.
Qed.

Lemma all_space_or_not (s : str) :
  Forall (fun c => isspace c = true) s
  \/ Exists (fun c => isspace c = false) s.
Proof.
  induction s as [|c s [IH|IH]].
  - left. constructor.
  - destruct (isspace c) eqn:E.
    + left. constructor; assumption.
    + right. constructor. exact E.
  - right. apply Exists_cons_tl. exact IH.
Qed.

Lemma space_and_not (s : str) :
  Forall (fun c => isspace c = true) s ->
  Exists (fun c => isspace c = false) s -> False.
Proof.
  intros HF HE. rewrite Forall_forall in HF. rewrite Exists_exists in HE.
  destruct HE as [c [Hin Hc]]. rewrite (HF c Hin) in Hc. discriminate.
Qed.

End Credential.

(** X14: a credential is in effect exactly when the variable is set and
    holds at least one character that is not white space; the key used
    for the call is the value without its surrounding white space. *)
Theorem credential_in_effect (W : World) :
  (truthy (openai_key W) = true
   <-> exists v, environ W (lit "OPENAI_API_KEY") = Some v
                 /\ Exists (fun c => isspace c = false) v)
  /\ strip (openai_key W) = openai_key W.
Proof.
  split; [|apply strip_idempotent].
  unfold openai_key, getenv.
  destruct (environ W (lit "OPENAI_API_KEY")) as [v|].
  - split.
    + intros H. exists v. split; [reflexivity|].
      destruct (all_space_or_not v) as [Hs|Hn]; [|exact Hn].
      rewrite (strip_whitespace v Hs) in H. discriminate.
    + intros [v' [E Hn]]. injection E as <-.
      destruct (strip v) eqn:S; [|reflexivity].
      exfalso. apply (space_and_not v); [apply strip_nil; exact S | exact Hn].
  - split; [discriminate|]. intros [v [E _]]. discriminate.
Qed.

(** ** Rendering the response *)

Section Rendering.

Lemma encodable_intro s :
  Forall (fun c => is_scalar c = true) s -> encodable s = true.
Proof.
  intros H. apply forallb_forall. rewrite Forall_forall in H. exact H.
Qed.

Lemma all_encodable ls :
  Forall (Forall (fun c => is_scalar c = true)) ls ->
  forallb encodable ls = true.
Proof.
  intros H. apply forallb_forall. rewrite Forall_forall in H.
  intros s Hs. apply encodable_intro, H, Hs.
Qed.

(** The insights are made of characters of the text and of the
    placeholder. *)
Lemma insights_chars (P : N -> Prop) t :
  Forall P t -> Forall P placeholder ->
  Forall (Forall P) (insights (heuristic_summarize t)).
Proof.
  intros Ht Hp. rewrite insights_unfold.
  assert (HL : Forall (Forall P) (salient_lines t)).
  { unfold salient_lines, splitlines.
    assert (L := splitlines_from_chars P (List.length t) t []
                   (le_n _) (Forall_nil _) Ht).
    induction L as [|ln ls Hln _ IH]; simpl; [constructor|].
    destruct (truthy (strip ln)); [|exact IH].
    simpl. constructor; [apply strip_Forall; exact Hln | exact IH]. }
  set (L := salient_lines t) in *.
  assert (Hall : Forall (Forall P)
                   (firstn 5 (firstn 3 L
                              ++ (if (3 <=? List.length L)%nat
                                  then skipn (List.length L - 3) L else L)))).
  { apply firstn_Forall, Forall_app. split; [apply firstn_Forall; exact HL|].
    destruct (3 <=? List.length L)%nat; [apply skipn_Forall|]; exact HL. }
  destruct (firstn 5 _); [|exact Hall].
  cbn [list_or]. constructor; [exact Hp | constructor].
Qed.

Lemma heuristic_renderable t :
  Forall (fun c => is_scalar c = true) t ->
  renderable (heuristic_summarize t) = true.
Proof.
  intros Ht. unfold renderable.
  rewrite (all_encodable (insights (heuristic_summarize t))).
  - reflexivity.
  - apply insights_chars; [exact Ht|].
    unfold placeholder. simpl. repeat constructor.
Qed.

Lemma decode_ignore_scalar data s :
  Utf8.decode Utf8.Ignore data = inr s ->
  Forall (fun c => is_scalar c = true) s.
Proof.
  unfold Utf8.decode. intros H.
  apply decode_loop_ignore_scalar in H; [tauto | apply to_N_bytes].
Qed.

(** The text of an upload is always encodable; pasted text is when it
    holds no surrogate. *)
Lemma effective_text_scalar form t :
  effective_text form t ->
  (file form = None -> Forall (fun c => is_scalar c = true) t) ->
  Forall (fun c => is_scalar c = true) t.
Proof.
  unfold effective_text. destruct (file form) as [f|]; intros He Hp.
  - eapply decode_ignore_scalar; exact He.
  - apply Hp. reflexivity.
Qed.

Lemma produced_summary_status (W : World) t st :
  Forall (fun c => is_scalar c = true) t ->
  (forall o, external_model W (openai_key W) t st = inr o ->
             renderable o = true) ->
  http_status (inr (produce_summary W t st)) = 200%Z.
Proof.
  intros Ht Hm. unfold http_status.
  destruct (produce_summary_cases W t st) as [E | [_ E]].
  - rewrite E, (heuristic_renderable t Ht). reflexivity.
  - rewrite (Hm _ E). reflexivity.
Qed.

Lemma status_200_or_500 (r : SummaryOut) :
  http_status (inr r) = 200%Z \/ http_status (inr r) = 500%Z.
Proof. unfold http_status. destruct (renderable r); auto. Qed.

End Rendering.

(** ** Well-formed input and stray bytes *)

Section Encoding.

Import Utf8.

Ltac as_props :=
  repeat match goal with
         | H : _ && _ = true |- _ => apply andb_true_iff in H; destruct H
         | H : _ && _ = false |- _ => apply andb_false_iff in H
         | H : _ || _ = true |- _ => apply orb_true_iff in H
         | H : _ || _ = false |- _ => apply orb_false_iff in H; destruct H
         | H : negb _ = true |- _ => apply negb_true_iff in H
         | H : negb _ = false |- _ => apply negb_false_iff in H
         | H : (_ <? _) = true |- _ => apply N.ltb_lt in H
         | H : (_ <? _) = false |- _ => apply N.ltb_ge in H
         | H : (_ <=? _) = true |- _ => apply N.leb_le in H
         | H : (_ <=? _) = false |- _ => apply N.leb_gt in H
         | H : (_ =? _) = true |- _ => apply N.eqb_eq in H
         | H : (_ =? _) = false |- _ => apply N.eqb_neq in H
         end.

Ltac euclid := zify; Z.to_euclidean_division_equations; lia.

Ltac crunch :=
  repeat (as_props;
          match goal with
          | H : _ \/ _ |- _ => destruct H
          | H : (if ?c then _ else _) = _ |- _ => destruct c eqn:?
          end);
  as_props.

Ltac decide_tests :=
  repeat match goal with
         | |- context [if ?c then _ else _] =>
             let E := fresh "E" in
             destruct c eqn:E; as_props;
             try (exfalso; crunch; euclid)
         end.

Lemma encode_cp_length c : (1 <= List.length (encode_cp c))%nat.
Proof.
  unfold encode_cp.
  destruct (c <? 0x80), (c <? 0x800), (c <? 0x10000); simpl; lia.
Qed.

(** The decoder reads the encoding of a scalar value back as that
    value. *)
Lemma scan_encode_cp c rest :
  is_scalar c = true ->
  match encode_cp c ++ rest with
  | b0 :: tl => scan b0 tl = Char c (List.length (encode_cp c))
  | [] => False
  end.
Proof.
  assert (S6 : forall a, N.shiftl a 6 = a * 64)
    by (intros a; apply N.shiftl_mul_pow2).
  assert (S12 : forall a, N.shiftl a 12 = a * 4096)
    by (intros a; apply N.shiftl_mul_pow2).
  assert (S18 : forall a, N.shiftl a 18 = a * 262144)
    by (intros a; apply N.shiftl_mul_pow2).
  unfold is_scalar. intros Hs.
  apply andb_true_iff in Hs. destruct Hs as [Hmax Hs].
  apply N.leb_le in Hmax. apply negb_true_iff, andb_false_iff in Hs.
  assert (Hsur : c < 0xD800 \/ 0xDFFF < c)
    by (destruct Hs as [E|E]; apply N.leb_gt in E; lia).
  clear Hs.
  unfold encode_cp.
  destruct (c <? 0x80) eqn:R1; [|destruct (c <? 0x800) eqn:R2;
                                  [|destruct (c <? 0x10000) eqn:R3]];
    as_props; cbn [app List.length];
    cbv beta iota delta [scan is_continuation];
    rewrite ?S6, ?S12, ?S18;
    decide_tests;
    (apply f_equal2; [destruct Hsur; euclid | reflexivity]).
Qed.

Lemma decode_loop_encode_cp c rest f pos :
  is_scalar c = true ->
  decode_loop (S f) Ignore pos (encode_cp c ++ rest)
  = match decode_loop f Ignore (pos + List.length (encode_cp c)) rest with
    | inr out => inr (c :: out)
    | inl e => inl e
    end.
Proof.
  intros Hc. assert (Hs := scan_encode_cp c rest Hc).
  destruct (encode_cp c ++ rest) as [|b0 tl] eqn:E; [contradiction|].
  cbn [decode_loop]. rewrite Hs. cbn [span]. rewrite <- E.
  rewrite skipn_app, skipn_all, Nat.sub_diag. reflexivity.
Qed.

Lemma decode_loop_text s rest out :
  Forall (fun c => is_scalar c = true) s ->
  (forall fuel pos, (List.length rest <= fuel)%nat ->
                    decode_loop fuel Ignore pos rest = inr out) ->
  forall fuel pos,
    (List.length (flat_map encode_cp s ++ rest) <= fuel)%nat ->
    decode_loop fuel Ignore pos (flat_map encode_cp s ++ rest)
    = inr (s ++ out).
Proof.
  intros Hs Hrest. induction Hs as [|c s Hc _ IH]; [exact Hrest|].
  intros fuel pos Hf. cbn [flat_map] in *.
  rewrite <- app_assoc in *. rewrite length_app in Hf.
  assert (H1 := encode_cp_length c).
  destruct fuel as [|f]; [lia|].
  rewrite (decode_loop_encode_cp c _ f pos Hc).
  rewrite IH by lia. reflexivity.
Qed.

Lemma decode_loop_stray b rest out :
  never_starts b = true ->
  (forall fuel pos, (List.length rest <= fuel)%nat ->
                    decode_loop fuel Ignore pos rest = inr out) ->
  forall fuel pos,
    (List.length (b :: rest) <= fuel)%nat ->
    decode_loop fuel Ignore pos (b :: rest) = inr out.
Proof.
  intros Hb Hrest fuel pos Hf.
  destruct fuel as [|f]; [simpl in Hf; lia|].
  assert (Hs : scan b rest = InvalidStart).
  { unfold never_starts in Hb. unfold scan.
    destruct (b <? 0x80) eqn:E0; as_props;
      [destruct Hb; as_props; lia|].
    destruct (b <? 0xE0) eqn:E1; as_props.
    - destruct (b <? 0xC2) eqn:E2; as_props; [reflexivity|].
      destruct Hb; as_props; lia.
    - destruct (b <? 0xF0) eqn:E2; as_props; [destruct Hb; as_props; lia|].
      destruct (b <? 0xF5) eqn:E3; as_props; [destruct Hb; as_props; lia|].
      reflexivity. }
  cbn [decode_loop]. rewrite Hs. cbn [span skipn].
  apply Hrest. simpl in Hf. lia.
Qed.

Lemma decode_loop_pieces ps :
  Forall piece_ok ps ->
  forall fuel pos,
    (List.length (flat_map piece_bytes ps) <= fuel)%nat ->
    decode_loop fuel Ignore pos (flat_map piece_bytes ps)
    = inr (flat_map piece_text ps).
Proof.
  induction 1 as [|p ps Hp _ IH]; intros fuel pos Hf.
  - destruct fuel; reflexivity.
  - cbn [flat_map] in *. destruct p as [s|b]; cbn [piece_bytes piece_text].
    + apply decode_loop_text; [exact Hp | exact IH | exact Hf].
    + cbn [app]. apply decode_loop_stray; [exact Hp | exact IH | exact Hf].
Qed.

End Encoding.

(** ** Further properties: the outcomes of the handler *)

(** X1: the handler ends in one of three ways only.  For a request that
    passes validation it returns a summary, and the response has status
    200 or, when the summary cannot be rendered, 500; the status is 200
    whenever pasted text holds no surrogate and a model answer that is
    used can be rendered.  A request without file and without non-empty
    text gets status 400 for missing input; one with a file of another
    extension gets status 400 for the format.  The handler raises nothing
    else. *)
Theorem handler_outcomes (W : World) (form : Form) :
  (passes_validation W form
   /\ (exists out, summarize W form = inr out)
   /\ (http_status (summarize W form) = 200%Z
       \/ http_status (summarize W form) = 500%Z)
   /\ exists t,
       effective_text form t
       /\ ((file form = None -> Forall (fun c => is_scalar c = true) t) ->
           (forall o,
               external_model W (openai_key W) t (summary_type form) = inr o ->
               renderable o = true) ->
           http_status (summarize W form) = 200%Z))
  \/ (file form = None /\ text_truthy (text form) = false
      /\ http_status (summarize W form) = 400%Z
      /\ summarize W form = inl (Http missing_input))
  \/ (exists f, file form = Some f /\ ~ accepted W f
                /\ http_status (summarize W form) = 400%Z
                /\ summarize W form = inl (Http unsupported_format)).
Proof.
  destruct (summarize_cases W form)
    as [[Hv [t [Ht Hs]]] | [[Hf [Ht Hs]] | [f [Hf [He Hs]]]]].
  - left. rewrite Hs. split; [exact Hv|]. split; [eauto|].
    split; [apply status_200_or_500|].
    exists t. split; [exact Ht|].
    intros Hp Hm. apply produced_summary_status; [|exact Hm].
    apply (effective_text_scalar form t Ht Hp).
  - right; left. rewrite Hs. repeat split; assumption.
  - right; right. exists f. rewrite Hs.
    split; [exact Hf|]. split; [|split; reflexivity].
    unfold accepted. rewrite He. discriminate.
Qed.

(** ** The claims *)

(** C1 (as the code has it): for a request that passes input validation
    (non-empty pasted text, or an upload with a plain-text name) the
    handler returns a [SummaryOut] and raises nothing; whenever the model
    call fails, by any exception and in particular by an import error, a
    network error, a timeout, a status outside 2xx, missing braces or
    unparseable JSON, what it returns is the heuristic summary of the
    effective text.  The response has status 200 whenever pasted text
    holds no surrogate code point (the text of an upload never does) and
    a model answer that is used can be rendered. *)
Theorem summarize_absorbs_model_failures (W : World) (form : Form) :
  passes_validation W form ->
  exists t,
    effective_text form t
    /\ (exists out, summarize W form = inr out)
    /\ (forall e,
          external_model W (openai_key W) t (summary_type form) = inl e ->
          summarize W form = inr (heuristic_summarize t))
    /\ (model_failure W (openai_key W) t (summary_type form) ->
        summarize W form = inr (heuristic_summarize t))
    /\ ((file form = None -> Forall (fun c => is_scalar c = true) t) ->
        (forall o,
            external_model W (openai_key W) t (summary_type form) = inr o ->
            renderable o = true) ->
        http_status (summarize W form) = 200%Z).
Proof.
  intros Hv.
  destruct (summarize_validated W form Hv) as [t [Ht Hs]].
  exists t. rewrite Hs.
  assert (Hall : forall e,
             external_model W (openai_key W) t (summary_type form) = inl e ->
             @inr Failure _ (produce_summary W t (summary_type form))
             = inr (heuristic_summarize t)).
  { intros e He. f_equal. eapply produce_summary_fallback; eassumption. }
  split; [exact Ht|]. split; [eauto|]. split; [exact Hall|]. split.
  - intros Hf. destruct (model_failure_raises W _ _ _ Hf) as [e He]. eauto.
  - intros Hp Hm. apply produced_summary_status; [|exact Hm].
    apply (effective_text_scalar form t Ht Hp).
Qed.

Lemma summarize_absorbs_model_failures_witness :
  passes_validation timing_out (pasted (lit "hello") (lit "short"))
  /\ summarize timing_out (pasted (lit "hello") (lit "short"))
     = inr (heuristic_summarize (lit "hello"))
  /\ http_status (summarize timing_out (pasted (lit "hello") (lit "short")))
     = 200%Z.
Proof.
  split; [reflexivity|].
  destruct (summarize_absorbs_model_failures
              timing_out (pasted (lit "hello") (lit "short")) eq_refl)
    as [t [Ht [_ [_ [Hf Hst]]]]].
  injection Ht as <-. split.
  - apply Hf. apply timeout. reflexivity.
  - apply Hst.
    + intros _. repeat constructor.
    + intros o Ho. vm_compute in Ho. discriminate Ho.
Defined.

(** C1, as stated, fails: pasted text that begins with a lone surrogate
    passes validation, the handler returns the heuristic summary, and the
    response is a 500 because the summary cannot be encoded. *)
Lemma lone_surrogate_not_200 :
  passes_validation offline lone_surrogate
  /\ summarize offline lone_surrogate
     = inr (heuristic_summarize ([0xD800] ++ lit "abc"))
  /\ http_status (summarize offline lone_surrogate) = 500%Z
  /\ http_status (summarize offline lone_surrogate) <> 200%Z.
Proof.
  split; [reflexivity|]. split; [reflexivity|]. split; [reflexivity|].
  vm_compute. discriminate.
Qed.

(** C2 (as the code has it): for the pasted text of seven lines Line1 to
    Line7 and no credential, the insights are the first three lines
    followed by the last three, cut to five entries, that is Line1, Line2,
    Line3, Line5, Line6; the risks are the one caution entry and the model
    used is the heuristic marker. *)
Theorem seven_lines_five_insights (W : World) (st : str) :
  no_credential W ->
  exists out,
    summarize W (pasted seven_lines st) = inr out
    /\ insights out
       = [lit "Line1"; lit "Line2"; lit "Line3"; lit "Line5"; lit "Line6"]
    /\ risks out = [caution]
    /\ model_used out = lit "heuristic".
Proof.
  intros Hn.
  destruct (summarize_validated W (pasted seven_lines st) eq_refl)
    as [t [Ht Hs]].
  injection Ht as <-.
  rewrite (produce_summary_no_credential W _ _ Hn) in Hs.
  exists (heuristic_summarize seven_lines).
  split; [exact Hs|]. repeat split.
Qed.

Lemma seven_lines_five_insights_witness :
  no_credential offline
  /\ exists out,
      summarize offline (pasted seven_lines (lit "executive")) = inr out
      /\ insights out
         = [lit "Line1"; lit "Line2"; lit "Line3"; lit "Line5"; lit "Line6"]
      /\ risks out = [caution]
      /\ model_used out = lit "heuristic".
Proof.
  split; [exact I|].
  apply (seven_lines_five_insights offline (lit "executive")). exact I.
Defined.

(** C2, as stated, fails: with no credential the insights for the seven
    lines are not the six entries Line1, Line2, Line3, Line5, Line6,
    Line7. *)
Lemma seven_lines_not_six_insights :
  no_credential offline
  /\ ~ (exists out,
          summarize offline (pasted seven_lines (lit "executive")) = inr out
          /\ insights out
             = [lit "Line1"; lit "Line2"; lit "Line3";
                lit "Line5"; lit "Line6"; lit "Line7"]
          /\ List.length (risks out) = 1%nat
          /\ model_used out = lit "heuristic").
Proof.
  split; [exact I|].
  intros [out [Hs [Hi _]]].
  vm_compute in Hs. injection Hs as <-.
  vm_compute in Hi. discriminate Hi.
Qed.

(** C3: with no credential (variable unset, or blank once stripped), every
    request that carries non-empty plain text gets a summary whose model
    marker is the heuristic one and whose insights number between one and
    five. *)
Theorem heuristic_without_credential (W : World) (form : Form) :
  no_credential W ->
  passes_validation W form ->
  exists out,
    summarize W form = inr out
    /\ model_used out = lit "heuristic"
    /\ (1 <= List.length (insights out) <= 5)%nat.
Proof.
  intros Hn Hv.
  destruct (summarize_validated W form Hv) as [t [_ Hs]].
  rewrite (produce_summary_no_credential W _ _ Hn) in Hs.
  exists (heuristic_summarize t).
  split; [exact Hs|]. split; [reflexivity|].
  apply heuristic_insights_bounds.
Qed.

Lemma heuristic_without_credential_witness :
  no_credential offline
  /\ passes_validation offline (pasted seven_lines (lit "detailed"))
  /\ exists out,
      summarize offline (pasted seven_lines (lit "detailed")) = inr out
      /\ model_used out = lit "heuristic"
      /\ (1 <= List.length (insights out) <= 5)%nat.
Proof.
  split; [exact I|]. split; [reflexivity|].
  apply (heuristic_without_credential offline); [exact I | reflexivity].
Defined.

(** C4 (as the code has it): for an upload with a plain-text name, the
    bytes are decoded as UTF-8 and decoding never fails the request.
    Every span that cannot be decoded is left out of the text: the text
    is made of the well-formed sequences the decoder meets, and where the
    replacing handler puts U+FFFD for a span in error, nothing appears.
    In particular, for input made of encoded text and of stray bytes that
    begin no sequence, the text read is the encoded text with the stray
    bytes gone; bytes that the strict decoder accepts are decoded as the
    strict decoder does. *)
Theorem upload_decoding_never_fails (W : World) (f : UploadFile) :
  accepted W f ->
  exists s,
    read_file_bytes W f = inr s
    /\ s = flat_map Utf8.dropped
             (Utf8.sequences (List.length (map Byte.to_N (content f)))
                             (map Byte.to_N (content f)))
    /\ Utf8.decode Utf8.Replace (content f)
       = inr (flat_map Utf8.marked
                (Utf8.sequences (List.length (map Byte.to_N (content f)))
                                (map Byte.to_N (content f))))
    /\ (forall s', Utf8.decode Utf8.Strict (content f) = inr s' -> s' = s)
    /\ (forall ps,
          map Byte.to_N (content f) = flat_map piece_bytes ps ->
          Forall piece_ok ps ->
          s = flat_map piece_text ps).
Proof.
  intros Ha.
  destruct (read_file_bytes_accepted W f Ha) as [s [Hd Hr]].
  exists s. split; [exact Hr|]. split; [|split; [|split]].
  - unfold Utf8.decode in Hd.
    rewrite decode_loop_ignore_sequences in Hd. congruence.
  - apply decode_loop_replace_sequences.
  - intros s' Hs'. apply decode_ignore_strict in Hs'. congruence.
  - intros ps Hb Hp. unfold Utf8.decode in Hd. rewrite Hb in Hd.
    rewrite (decode_loop_pieces ps Hp) in Hd by lia. congruence.
Qed.

Lemma upload_decoding_never_fails_witness :
  accepted offline mixed_txt
  /\ read_file_bytes offline mixed_txt
     = inr [0x63; 0xE9; 0x20AC; 0x1F600; 0x62].
Proof.
  split; [reflexivity|].
  destruct (upload_decoding_never_fails offline mixed_txt eq_refl)
    as [s [Hr [_ [_ [_ Hp]]]]].
  rewrite Hr. f_equal.
  apply (Hp [Text [0x63; 0xE9]; Stray 0xFF; Text [0x20AC]; Stray 0x80;
             Text [0x1F600; 0x62]]).
  - reflexivity.
  - repeat constructor.
Defined.

(** C4, as stated, fails: the text read from an accepted upload is not the
    one in which undecodable bytes are replaced.  For the bytes
    63 C3 A9 FF E2 82 AC 80 F0 9F 98 80 62 the replacing handler gives
    c, U+E9, U+FFFD, U+20AC, U+FFFD, U+1F600, b, while the handler reads
    the same text without the two U+FFFD. *)
Lemma undecodable_bytes_not_replaced :
  accepted offline mixed_txt
  /\ Utf8.decode Utf8.Replace (content mixed_txt)
     = inr [0x63; 0xE9; 0xFFFD; 0x20AC; 0xFFFD; 0x1F600; 0x62]
  /\ read_file_bytes offline mixed_txt
     = inr [0x63; 0xE9; 0x20AC; 0x1F600; 0x62]
  /\ ~ (exists s,
          Utf8.decode Utf8.Replace (content mixed_txt) = inr s
          /\ read_file_bytes offline mixed_txt = inr s).
Proof.
  split; [reflexivity|]. split; [reflexivity|]. split; [reflexivity|].
  intros [s [Hd Hr]].
  vm_compute in Hd. vm_compute in Hr. congruence.
Qed.

(** C5: a request with neither text nor file fails with status 400 and a
    message that asks for text or a file; no summary is produced. *)
Theorem missing_input_rejected (W : World) (st : str) :
  summarize W {| text := None; file := None; summary_type := st |}
  = inl (Http missing_input)
  /\ http_status
       (summarize W {| text := None; file := None; summary_type := st |})
     = 400%Z
  /\ detail missing_input = lit "Provide 'text' or a .txt 'file'."
  /\ contains (detail missing_input) (lit "'text' or a .txt 'file'") = true
  /\ (forall out,
        summarize W {| text := None; file := None; summary_type := st |}
        <> inr out).
Proof.
  repeat split. intros out H. discriminate H.
Qed.

(** C6: an upload whose name does not end in the plain-text extension
    fails with status 400 and a message saying that only .txt is accepted,
    whatever the text field holds. *)
Theorem unsupported_file_rejected
        (W : World) (t : option str) (f : UploadFile) (st : str) :
  endswith (str_lower W (filename f)) (lit ".txt") = false ->
  summarize W {| text := t; file := Some f; summary_type := st |}
  = inl (Http unsupported_format)
  /\ http_status
       (summarize W {| text := t; file := Some f; summary_type := st |})
     = 400%Z
  /\ contains (detail unsupported_format) (lit "Only .txt accepted") = true.
Proof.
  intros H.
  assert (Hs : summarize W {| text := t; file := Some f; summary_type := st |}
               = inl (Http unsupported_format)).
  { unfold summarize. cbn [text file summary_type file_truthy].
    rewrite andb_false_r. cbn.
    rewrite (read_file_bytes_rejected W f H). reflexivity. }
  rewrite Hs. repeat split.
Qed.

Lemma unsupported_file_rejected_witness :
  endswith (str_lower offline (filename report_pdf)) (lit ".txt") = false
  /\ summarize offline {| text := Some (lit "pasted"); file := Some report_pdf;
                          summary_type := lit "executive" |}
     = inl (Http unsupported_format).
Proof.
  split; [reflexivity|].
  apply (unsupported_file_rejected offline (Some (lit "pasted")) report_pdf
                                   (lit "executive")).
  reflexivity.
Defined.

(** C7: when a text field and an accepted upload are both present, the
    summary is produced from the decoded upload, and the text field has no
    influence on the answer. *)
Theorem file_input_wins (W : World) (t : str) (f : UploadFile) (st : str) :
  accepted W f ->
  exists s,
    Utf8.decode Utf8.Ignore (content f) = inr s
    /\ summarize W {| text := Some t; file := Some f; summary_type := st |}
       = inr (produce_summary W s st)
    /\ (forall t',
          summarize W {| text := t'; file := Some f; summary_type := st |}
          = summarize W {| text := Some t; file := Some f; summary_type := st |}).
Proof.
  intros Ha.
  destruct (read_file_bytes_accepted W f Ha) as [s [Hd Hr]].
  assert (Hs : forall t',
             summarize W {| text := t'; file := Some f; summary_type := st |}
             = inr (produce_summary W s st)).
  { intros t'. unfold summarize. cbn [text file summary_type file_truthy].
    rewrite andb_false_r. cbn. rewrite Hr. reflexivity. }
  exists s. split; [exact Hd|]. split; [apply Hs|].
  intros t'. rewrite !Hs. reflexivity.
Qed.

Lemma file_input_wins_witness :
  accepted offline notes_txt
  /\ summarize offline {| text := Some (lit "pasted"); file := Some notes_txt;
                          summary_type := lit "short" |}
     = inr (produce_summary offline (lit "hi" ++ nl ++ lit "yo") (lit "short")).
Proof.
  split; [reflexivity|].
  destruct (file_input_wins offline (lit "pasted") notes_txt (lit "short")
                            eq_refl)
    as [s [Hd [Hs _]]].
  vm_compute in Hd. injection Hd as <-. exact Hs.
Defined.

(** C8: a text with no non-empty line, such as one of white space only
    (see [whitespace_lines_blank]), gets from the heuristic path exactly
    one insight, the fixed placeholder, whose literal in the code ends
    with a full stop. *)
Theorem blank_text_placeholder (t : str) :
  no_salient_line t ->
  insights (heuristic_summarize t) = [lit "No salient lines detected."].
Proof.
  intros H. unfold heuristic_summarize. cbn [insights].
  rewrite (filter_all_blank _ H). reflexivity.
Qed.

Lemma blank_text_placeholder_witness :
  no_salient_line (lit "  " ++ nl ++ [0x09; 0x20])
  /\ insights (heuristic_summarize (lit "  " ++ nl ++ [0x09; 0x20]))
     = [lit "No salient lines detected."].
Proof.
  assert (H : no_salient_line (lit "  " ++ nl ++ [0x09; 0x20])).
  { apply whitespace_lines_blank. repeat constructor. }
  split; [exact H|].
  apply (blank_text_placeholder _ H).
Defined.

(** C9: an empty text field without a file is rejected exactly as a
    missing text field is, with the status 400 of missing input. *)
Theorem empty_text_rejected (W : World) (st : str) :
  summarize W {| text := Some []; file := None; summary_type := st |}
  = summarize W {| text := None; file := None; summary_type := st |}
  /\ summarize W {| text := Some []; file := None; summary_type := st |}
     = inl (Http missing_input)
  /\ http_status
       (summarize W {| text := Some []; file := None; summary_type := st |})
     = 400%Z.
Proof. repeat split. Qed.

(** C10: with no credential the answer does not depend on the summary
    type: two requests that differ in it alone get the same outcome, and
    two validated requests with the same effective text get the same
    summary whatever their summary types, so no value of the field is
    rejected. *)
Theorem summary_type_irrelevant (W : World) :
  no_credential W ->
  (forall t f st1 st2,
      summarize W {| text := t; file := f; summary_type := st1 |}
      = summarize W {| text := t; file := f; summary_type := st2 |})
  /\ (forall form1 form2 txt,
        passes_validation W form1 -> passes_validation W form2 ->
        effective_text form1 txt -> effective_text form2 txt ->
        exists out,
          summarize W form1 = inr out /\ summarize W form2 = inr out).
Proof.
  intros Hn. split.
  - intros t f st1 st2. unfold summarize. cbn [text file summary_type].
    destruct (negb (text_truthy t) && negb (file_truthy f)); [reflexivity|].
    destruct f as [f|]; cbn.
    + destruct (read_file_bytes W f); [reflexivity|].
      rewrite !(produce_summary_no_credential W _ _ Hn). reflexivity.
    + destruct t; [|reflexivity].
      rewrite !(produce_summary_no_credential W _ _ Hn). reflexivity.
  - intros form1 form2 txt Hv1 Hv2 He1 He2.
    destruct (summarize_validated W form1 Hv1) as [t1 [Ht1 Hs1]].
    destruct (summarize_validated W form2 Hv2) as [t2 [Ht2 Hs2]].
    rewrite (effective_text_unique _ _ _ Ht1 He1) in Hs1.
    rewrite (effective_text_unique _ _ _ Ht2 He2) in Hs2.
    rewrite (produce_summary_no_credential W _ _ Hn) in Hs1.
    rewrite (produce_summary_no_credential W _ _ Hn) in Hs2.
    exists (heuristic_summarize txt). split; assumption.
Qed.

Lemma summary_type_irrelevant_witness :
  no_credential offline
  /\ summarize offline (pasted (lit "hello") (lit "short"))
     = summarize offline (pasted (lit "hello") (lit "anything at all")).
Proof.
  split; [exact I|].
  apply (proj1 (summary_type_irrelevant offline I)).
Defined.
